(** * The file-share browser client

    A shallow embedding of [static/js/app.js] (the table view) and of its
    card-grid revision.  Both revisions share the upload queue, the
    formatting helpers and [insertOrUpdateFile]; they differ in
    [refreshFiles] (preferences), in the delete action and in
    [ensureShareLink].  The shared code comes first, the two revisions live
    in [Module Table] and [Module Cards].

    Modelling choices, all visible in the definitions below:
    - JavaScript numbers that hold byte counts are integers ([Z]), and
      adding them rounds to the nearest double ([js_add]), which is exact
      within the safe integers; numbers that are genuinely fractional
      (upload progress, the argument of [formatBytes]) are [JsNum], exact
      rationals extended with NaN and the infinities, on which the rounding
      of IEEE doubles is not modelled.
    - The message of an error the engine raises ([SyntaxError] of a body
      that does not parse, [TypeError] of a property read on [null]) is
      the engine's and comes with the server's answer.
    - An optional string property is [option string]; [None] stands for
      [undefined] and [null].  Truthiness is written out ([truthy]).
    - Queue items are objects shared between the queue array and the
      closures of XHR handlers, click handlers and timers: they live in a
      heap and are named by reference.
    - The DOM is not modelled; a call that only touches the DOM is logged
      as an [Effect].  Network requests are effects as well, which is what
      lets a theorem say that none was made.
    - The upload queue runs in an event loop: requests in flight, armed
      timers and outstanding refreshes are part of the world, and their
      callbacks are events.  A registry action that awaits one [fetch]
      (delete, share) is run to completion with the server's answer given
      as an argument; no other handler runs in between. *)

From Stdlib Require Import ZArith QArith Qround Ascii String.
From stdpp Require Import base strings list pretty.

(** ** JavaScript values *)

(** [Boolean(s)] for an optional string. *)
Definition truthy (s : option string) : bool :=
  match s with
  | Some x => negb (String.eqb x EmptyString)
  | None => false
  end.

(** [a || b] on optional strings. *)
Definition or_else (a b : option string) : option string :=
  if truthy a then a else b.

(** [s || fallback] where the result is used as a string. *)
Definition or_text (s : option string) (fallback : string) : string :=
  match s with
  | Some x => if String.eqb x EmptyString then fallback else x
  | None => fallback
  end.

(** [n || 0] on an optional number. *)
Definition or_zero (n : option Z) : Z := default 0%Z n.

(** The double-quote character, for the template strings that quote a name. *)
Definition dquote : string := String (ascii_of_nat 34) EmptyString.

(** A JavaScript number that need not be an integer. *)
Inductive JsNum :=
| NaN
| Infinity (negative : bool)
| Finite (q : Q).

(** ** Records of the data model *)

Module FileRecord.
(** A file descriptor as the server sends it, with the fields that the
    functions modelled here read or write. *)
Record t := mk {
  id : string;
  name : string;
  size : option Z;
  content_type : option string;
  is_public : bool;
  share_url : option string;
  share_raw_url : option string;
  share_token : option string;
  view_url : option string;
  download_url : option string;
}.

Definition set_share_url (v : option string) (f : t) : t :=
  mk (id f) (name f) (size f) (content_type f) (is_public f)
     v (share_raw_url f) (share_token f) (view_url f) (download_url f).
Definition set_share_raw_url (v : option string) (f : t) : t :=
  mk (id f) (name f) (size f) (content_type f) (is_public f)
     (share_url f) v (share_token f) (view_url f) (download_url f).
Definition set_share_token (v : option string) (f : t) : t :=
  mk (id f) (name f) (size f) (content_type f) (is_public f)
     (share_url f) (share_raw_url f) v (view_url f) (download_url f).
Definition set_is_public (v : bool) (f : t) : t :=
  mk (id f) (name f) (size f) (content_type f) v
     (share_url f) (share_raw_url f) (share_token f) (view_url f)
     (download_url f).
End FileRecord.

Module File.
(** A browser [File] picked or dropped by the user. *)
Record t := mk { name : string; size : Z }.
End File.

Inductive Status := pending | uploading | success | error.

Global Instance Status_eq_dec : EqDecision Status.
Proof. solve_decision. Defined.

(** A reference to a queue item object: its index in the heap. *)
Abbreviation ref := nat (only parsing).

Module QueueItem.
Record t := mk {
  id : string;
  file : File.t;
  status : Status;
  progress : JsNum;
  message : string;
}.

Definition set_status (v : Status) (i : t) : t :=
  mk (id i) (file i) v (progress i) (message i).
Definition set_progress (v : JsNum) (i : t) : t :=
  mk (id i) (file i) (status i) v (message i).
Definition set_message (v : string) (i : t) : t :=
  mk (id i) (file i) (status i) (progress i) v.
End QueueItem.

Record Preferences := mkPreferences {
  hideMediaDefault : bool;
  copyUrlMode : string;
}.

(** The module-level [state] object.  The card-grid revision has no
    [preferences] and never touches that field. *)
Record State := mkState {
  files : list FileRecord.t;
  capacity : Z;
  totalSize : Z;
  queue : list ref;
  preferences : Preferences;
}.

Definition set_files (v : list FileRecord.t) (s : State) : State :=
  mkState v (capacity s) (totalSize s) (queue s) (preferences s).
Definition set_capacity (v : Z) (s : State) : State :=
  mkState (files s) v (totalSize s) (queue s) (preferences s).
Definition set_totalSize (v : Z) (s : State) : State :=
  mkState (files s) (capacity s) v (queue s) (preferences s).
Definition set_queue (v : list ref) (s : State) : State :=
  mkState (files s) (capacity s) (totalSize s) v (preferences s).
Definition set_preferences (v : Preferences) (s : State) : State :=
  mkState (files s) (capacity s) (totalSize s) (queue s) v.

(** Everything a handler can see or change: [state], the queue item objects,
    and what the platform keeps for the page (requests in flight, timers). *)
Record World := mkWorld {
  state : State;
  heap : list QueueItem.t;
  (** one entry per [XMLHttpRequest] sent and not yet completed *)
  xhrs : list ref;
  (** one entry per timer armed by [scheduleQueueRemoval] and not yet fired *)
  timers : list ref;
  (** one entry per [refreshFiles] call whose [fetch] is outstanding; the
      entry is its [showToastOnSuccess] argument *)
  refreshes : list bool;
}.

Definition set_state (v : State) (w : World) : World :=
  mkWorld v (heap w) (xhrs w) (timers w) (refreshes w).
Definition set_heap (v : list QueueItem.t) (w : World) : World :=
  mkWorld (state w) v (xhrs w) (timers w) (refreshes w).
Definition set_xhrs (v : list ref) (w : World) : World :=
  mkWorld (state w) (heap w) v (timers w) (refreshes w).
Definition set_timers (v : list ref) (w : World) : World :=
  mkWorld (state w) (heap w) (xhrs w) v (refreshes w).
Definition set_refreshes (v : list bool) (w : World) : World :=
  mkWorld (state w) (heap w) (xhrs w) (timers w) v.

(** ** Effects *)

Module Toast.
Inductive type := info | success | error.
End Toast.

Inductive Effect :=
| Fetch (method url : string)
| XhrSend (method url : string) (item : ref)
| ShowToast (message : string) (type : Toast.type)
| SetLocation (href : string)
| RenderFiles
| UpdateStats
| RenderQueue
| UpdateQueueVisual (item : ref)
| SetTimeout (item : ref) (ms : Z)
| CopyToClipboard (text successMessage : string).

Global Instance Toast_type_eq_dec : EqDecision Toast.type.
Proof. solve_decision. Defined.

Global Instance Effect_eq_dec : EqDecision Effect.
Proof. solve_decision. Defined.

Definition is_network (e : Effect) : bool :=
  match e with
  | Fetch _ _ | XhrSend _ _ _ => true
  | _ => false
  end.

(** ** The handler monad: state, exceptions and an effect log *)

Inductive Completion (A : Type) :=
| Normal (a : A)
| Throw (message : string).
Arguments Normal {A} a.
Arguments Throw {A} message.

Definition M (A : Type) : Type := World → Completion A * World * list Effect.

Global Instance M_ret : MRet M := λ A a w, (Normal a, w, []).

(** The effects [es] happened before the outcome [r] was reached. *)
Definition after {A} (es : list Effect)
    (r : Completion A * World * list Effect)
  : Completion A * World * list Effect :=
  match r with (c, w, es') => (c, w, es ++ es') end.

Global Instance M_bind : MBind M := λ A B k m w,
  match m w with
  | (Normal a, w1, e1) => after e1 (k a w1)
  | (Throw msg, w1, e1) => (Throw msg, w1, e1)
  end.

Definition throw {A} (msg : string) : M A := λ w, (Throw msg, w, []).

(** [try { m } catch (error) { h error.message }] *)
Definition try_catch {A} (m : M A) (h : string → M A) : M A := λ w,
  match m w with
  | (Throw msg, w1, e1) => after e1 (h msg w1)
  | r => r
  end.

Definition emit (e : Effect) : M unit := λ w, (Normal tt, w, [e]).
Definition get_state : M State := λ w, (Normal (state w), w, []).
Definition modify_state (f : State → State) : M unit :=
  λ w, (Normal tt, set_state (f (state w)) w, []).
Definition modify_world (f : World → World) : M unit :=
  λ w, (Normal tt, f w, []).
Definition get_world : M World := λ w, (Normal w, w, []).

(** Run a handler: the world it leaves and the effects it had. *)
Definition run {A} (m : M A) (w : World) : World * list Effect :=
  match m w with (_, w', e) => (w', e) end.

Definition showToast (message : string) (type : Toast.type) : M unit :=
  emit (ShowToast message type).
Definition renderFiles : M unit := emit RenderFiles.
Definition updateStats : M unit := emit UpdateStats.
Definition renderQueue : M unit := emit RenderQueue.
Definition updateQueueVisual (item : ref) : M unit :=
  emit (UpdateQueueVisual item).
(** [window.location.href = "/login"] *)
Definition redirectToLogin : M unit := emit (SetLocation "/login").

(** ** Server answers *)

(** The outcome of [response.json()] (or of [JSON.parse]): the text does
    not parse, with the message of the [SyntaxError]; or it is [null], with
    the message of the [TypeError] that the engine at hand raises when the
    handler reads a property of it; or it is an object. *)
Inductive Json (B : Type) :=
| Unparsable (message : string)
| JsonNull (typeError : string)
| JsonObject (b : B).
Arguments Unparsable {B} message.
Arguments JsonNull {B} typeError.
Arguments JsonObject {B} b.

(** A parsed value: [null] or an object. *)
Inductive Value (B : Type) :=
| Null (typeError : string)
| Obj (b : B).
Arguments Null {B} typeError.
Arguments Obj {B} b.

(** The outcome of [await fetch(...)]. *)
Inductive FetchResult (B : Type) :=
| Rejected (message : string)
| Response (status : Z) (body : Json B).
Arguments Rejected {B} message.
Arguments Response {B} status body.

(** [response.ok] *)
Definition ok (status : Z) : bool := (200 <=? status)%Z && (status <=? 299)%Z.

(** The promise returned by [fetch] settles: it rejects, or it resolves to a
    response of which the handlers read [status] and the body. *)
Definition settle {B} (server : FetchResult B) : M (Z * Json B) :=
  match server with
  | Rejected msg => throw msg
  | Response status body => mret (status, body)
  end.

(** [await fetch(url, { method })]: the request goes out, then the handler
    resumes with the server's answer. *)
Definition fetch {B} (method url : string) (server : FetchResult B)
  : M (Z * Json B) :=
  emit (Fetch method url);; settle server.

(** [JSON.parse(text)] / [response.json()] *)
Definition parse {B} (body : Json B) : M (Value B) :=
  match body with
  | Unparsable msg => throw msg
  | JsonNull typeError => mret (Null typeError)
  | JsonObject b => mret (Obj b)
  end.

(** The first property read on a parsed value. *)
Definition object {B} (value : Value B) : M B :=
  match value with
  | Null typeError => throw typeError
  | Obj b => mret b
  end.

(** [await response.json()] followed by a property read. *)
Definition json {B} (body : Json B) : M B :=
  value ← parse body; object value.

(** [await response.json().catch(() => ({}))] followed by a property read;
    [empty] is the object without properties. *)
Definition json_or_empty {B} (empty : B) (body : Json B) : M B :=
  match body with
  | Unparsable _ => mret empty
  | JsonNull typeError => throw typeError
  | JsonObject b => mret b
  end.

Definition handleUnauthorizedResponse (status : Z) : M bool :=
  if (status =? 401)%Z then redirectToLogin;; mret true else mret false.

Record ErrorBody := mkErrorBody { message : option string }.

Record PreferencesBody := mkPreferencesBody {
  hide_media_default : bool;
  copy_url_mode : option string;
}.

Module Listing.
Record t := mk {
  files : option (list FileRecord.t);
  total_size : option Z;
  capacity : option Z;
  preferences : option PreferencesBody;
}.
End Listing.

Module Share.
Record t := mk {
  share_url : option string;
  share_raw_url : option string;
  share_token : option string;
  message : option string;
}.
Definition empty : t := mk None None None None.
End Share.

Module Upload.
Record t := mk {
  (** [response.files?.[0]] *)
  uploadedFile : option FileRecord.t;
  message : option string;
}.
End Upload.

(** ** The registry *)

(** [state.files.findIndex((entry) => entry.id === fileId)] together with
    [state.files.find(...)]. *)
Definition findFile (fileId : string) (l : list FileRecord.t)
  : option (nat * FileRecord.t) :=
  list_find (λ entry, FileRecord.id entry = fileId) l.

(** The double nearest to an integer, ties to the even significand: an
    integer of magnitude below [2^53] is its own double, a larger one is
    rounded to 53 significant bits.  (Magnitudes from [2^1024] on, which a
    double turns into an infinity, are outside the model.) *)
Definition to_double (n : Z) : Z :=
  let a := Z.abs n in
  let e := (Z.log2 a - 52)%Z in
  if (e <=? 0)%Z then n
  else
    let ulp := (2 ^ e)%Z in
    let q := (a / ulp)%Z in
    let r := (a mod ulp)%Z in
    let nearest :=
      if (2 * r <? ulp)%Z then q
      else if (ulp <? 2 * r)%Z then (q + 1)%Z
      else if Z.even q then q else (q + 1)%Z in
    (Z.sgn n * (nearest * ulp))%Z.

(** [a + b] on numbers that hold integers. *)
Definition js_add (a b : Z) : Z := to_double (a + b).

(** [state.files.reduce((total, current) => total + (current.size || 0), 0)] *)
Definition reduceSize (l : list FileRecord.t) : Z :=
  foldl (λ total current, js_add total (or_zero (FileRecord.size current)))
        0%Z l.

Definition insertOrUpdateFile_state (file : FileRecord.t) (s : State) : State :=
  let files' :=
    match findFile (FileRecord.id file) (files s) with
    | Some (existingIndex, _) => <[existingIndex := file]> (files s)
    | None => file :: files s
    end in
  set_totalSize (reduceSize files') (set_files files' s).

Definition insertOrUpdateFile (file : FileRecord.t) : M unit :=
  modify_state (insertOrUpdateFile_state file).


(** ** The upload queue *)

Definition MAX_FILE_SIZE : Z := 500 * 1024 * 1024.

(** [a / b * 100] on non-negative integers, as JavaScript divides. *)
Definition percentage (a b : Z) : JsNum :=
  if (b =? 0)%Z then
    if (a =? 0)%Z then NaN else Infinity (a <? 0)%Z
  else Finite (Qred (inject_Z a / inject_Z b * 100)).

(** [item.field = v] on the object behind a reference. *)
Definition update_item (item : ref) (f : QueueItem.t → QueueItem.t)
  : M unit :=
  modify_world (λ w, set_heap (alter f item (heap w)) w).

(** A reference held by a closure is never dangling: every item a listener
    or a timer is created for is allocated first.  This value only makes
    [read_item] total. *)
Definition danglingReference : string := "dangling reference".

(** Read the object behind a reference. *)
Definition read_item (item : ref) : M QueueItem.t := λ w,
  match heap w !! item with
  | Some it => (Normal it, w, [])
  | None => (Throw danglingReference, w, [])
  end.

(** [state.queue.push({...})] with a freshly allocated object. *)
Definition push_item (it : QueueItem.t) : M unit :=
  modify_world (λ w,
    let r := length (heap w) in
    set_state (set_queue (queue (state w) ++ [r]) (state w))
      (set_heap (heap w ++ [it]) w)).

(** The body of [files.forEach] in [addFilesToQueue].  Every candidate comes
    with the identifier that [Date.now()] and [Math.random()] would give it. *)
Fixpoint addFiles_each (files : list (File.t * string)) (addedCount : nat)
  : M nat :=
  match files with
  | [] => mret addedCount
  | (file, newId) :: rest =>
      if (File.size file >? MAX_FILE_SIZE)%Z then
        showToast (dquote +:+ File.name file +:+ dquote
                   +:+ " ist größer als 500 MB und wurde übersprungen.")
                  Toast.error;;
        addFiles_each rest addedCount
      else
        push_item (QueueItem.mk newId file pending (Finite 0)
                                "Bereit für Upload");;
        addFiles_each rest (S addedCount)
  end.

Definition addFilesToQueue (fileList : list (File.t * string)) : M unit :=
  match fileList with
  | [] => mret tt
  | _ =>
      addedCount ← addFiles_each fileList 0;
      renderQueue;;
      if (0 <? addedCount)%nat then
        showToast
          (pretty addedCount +:+ " Datei(en) hinzugefügt. "
           +:+ "Starte den Upload, wenn du bereit bist.")
          Toast.success
      else mret tt
  end.

(** The un-awaited call [refreshFiles(showToastOnSuccess)]: the request goes
    out at once, the rest of the function runs when the answer arrives. *)
Definition refreshFiles (showToastOnSuccess : bool) : M unit :=
  emit (Fetch "GET" "/api/files");;
  modify_world (λ w, set_refreshes (refreshes w ++ [showToastOnSuccess]) w).

Definition scheduleQueueRemoval (item : ref) : M unit :=
  emit (SetTimeout item 4000);;
  modify_world (λ w, set_timers (timers w ++ [item]) w).

(** The synchronous part of [uploadQueueItem]: up to [xhr.send(formData)]. *)
Definition uploadQueueItem (item : ref) : M unit :=
  update_item item (QueueItem.set_status uploading);;
  update_item item (QueueItem.set_progress (Finite 0));;
  update_item item (QueueItem.set_message "Upload läuft...");;
  updateQueueVisual item;;
  emit (XhrSend "POST" "/api/upload" item);;
  modify_world (λ w, set_xhrs (xhrs w ++ [item]) w).

(** The [progress] listener of [xhr.upload]. *)
Definition onProgress (item : ref) (lengthComputable : bool) (loaded total : Z)
  : M unit :=
  if lengthComputable then
    update_item item (QueueItem.set_progress (percentage loaded total));;
    updateQueueVisual item
  else mret tt.

Definition uploadFailed (item : ref) : M unit :=
  update_item item (QueueItem.set_status error);;
  update_item item (QueueItem.set_message "Der Upload ist fehlgeschlagen.");;
  updateQueueVisual item;;
  it ← read_item item;
  showToast (QueueItem.message it) Toast.error.

(** The [load] listener of the request.  [responseText] is the outcome of
    [JSON.parse(xhr.responseText || "{}")]: an empty text parses as the
    object without properties. *)
Definition onLoad (item : ref) (status : Z) (responseText : Json Upload.t)
  : M unit :=
  if (status =? 401)%Z then redirectToLogin
  else
    try_catch
      (response ← parse responseText;
       if ok status then
         data ← object response;
         let uploadedFile := Upload.uploadedFile data in
         update_item item (QueueItem.set_status success);;
         update_item item (QueueItem.set_progress (Finite 100));;
         update_item item (QueueItem.set_message "Upload abgeschlossen.");;
         updateQueueVisual item;;
         it ← read_item item;
         showToast (dquote +:+ File.name (QueueItem.file it) +:+ dquote
                    +:+ " wurde erfolgreich hochgeladen.") Toast.success;;
         match uploadedFile with
         | Some f => insertOrUpdateFile f;; updateStats;; renderFiles
         | None => refreshFiles false
         end;;
         scheduleQueueRemoval item
       else
         update_item item (QueueItem.set_status error);;
         data ← object response;
         update_item item
           (QueueItem.set_message
              (or_text (Upload.message data)
                       "Der Upload ist fehlgeschlagen."));;
         updateQueueVisual item;;
         it ← read_item item;
         showToast (QueueItem.message it) Toast.error)
      (λ _, uploadFailed item).

(** The [error] listener of the request. *)
Definition onError (item : ref) : M unit :=
  update_item item (QueueItem.set_status error);;
  update_item item (QueueItem.set_message "Netzwerkfehler beim Upload.");;
  updateQueueVisual item;;
  it ← read_item item;
  showToast (QueueItem.message it) Toast.error.

(** [entry.id] for an entry of [state.queue]. *)
Definition entry_id (h : list QueueItem.t) (entry : ref) : option string :=
  QueueItem.id <$> h !! entry.

(** The callback armed by [scheduleQueueRemoval]. *)
Definition onRemovalTimeout (item : ref) : M unit :=
  it ← read_item item;
  w ← get_world;
  match list_find (λ entry, entry_id (heap w) entry = Some (QueueItem.id it))
                  (queue (state w)) with
  | Some (index, entry) =>
      if bool_decide (QueueItem.status <$> heap w !! entry = Some success) then
        modify_state (λ s, set_queue (delete index (queue s)) s);;
        renderQueue
      else mret tt
  | None => mret tt
  end.

(** The click listener of a row's remove button. *)
Definition onRemoveClick (item : ref) : M unit :=
  it ← read_item item;
  if bool_decide (QueueItem.status it ≠ pending) then
    showToast "Nur wartende Dateien können entfernt werden." Toast.info
  else
    w ← get_world;
    modify_state (λ s,
      set_queue
        (filter (λ queueItem,
                   entry_id (heap w) queueItem ≠ Some (QueueItem.id it))
                (queue s)) s);;
    renderQueue.

Definition is_pending (h : list QueueItem.t) (entry : ref) : bool :=
  bool_decide (QueueItem.status <$> h !! entry = Some pending).

(** [state.queue.forEach((item) => { if (item.status === "pending") ... })] *)
Fixpoint uploadPending (entries : list ref) : M unit :=
  match entries with
  | [] => mret tt
  | item :: rest =>
      w ← get_world;
      (if is_pending (heap w) item then uploadQueueItem item else mret tt);;
      uploadPending rest
  end.

(** The click listener of the start-upload button. *)
Definition onStartUploadClick : M unit :=
  w ← get_world;
  let hasPending := existsb (is_pending (heap w)) (queue (state w)) in
  if negb hasPending then
    showToast "Keine Dateien in der Warteschlange." Toast.info
  else uploadPending (queue (state w)).

(** ** The table view, [static/js/app.js] *)

Module Table.

(** [refreshFiles] from the point where [await fetch("/api/files")] settles.
    The [try] block starts before the [fetch], so a rejected request lands
    in the [catch] as well. *)
Definition refreshFiles_resume (showToastOnSuccess : bool)
    (server : FetchResult Listing.t) : M unit :=
  try_catch
    ('(status, body) ← settle server;
     unauthorized ← handleUnauthorizedResponse status;
     if (unauthorized : bool) then mret tt
     else if negb (ok status) then throw "Fehler beim Laden der Dateien."
     else
       data ← json body;
       modify_state (set_files (default [] (Listing.files data)));;
       modify_state (set_totalSize (or_zero (Listing.total_size data)));;
       modify_state (set_capacity (or_zero (Listing.capacity data)));;
       match Listing.preferences data with
       | Some prefs =>
           modify_state (λ s,
             set_preferences
               (mkPreferences (hide_media_default prefs)
                  (if truthy (copy_url_mode prefs)
                   then default EmptyString (copy_url_mode prefs)
                   else copyUrlMode (preferences s))) s)
       | None => mret tt
       end;;
       renderFiles;;
       updateStats;;
       if showToastOnSuccess
       then showToast "Dateiliste aktualisiert." Toast.success
       else mret tt)
    (λ msg, showToast (or_text (Some msg)
                         "Die Dateiliste konnte nicht geladen werden.")
                      Toast.error).

(** [deleteFile(fileId)]; [confirmed] is the user's answer to [confirm]. *)
Definition deleteFile (fileId : string) (confirmed : bool)
    (server : FetchResult ErrorBody) : M unit :=
  s ← get_state;
  match findFile fileId (files s) with
  | None => showToast "Datei wurde nicht gefunden." Toast.error
  | Some (_, file) =>
      if negb confirmed then mret tt
      else
        try_catch
          ('(status, body) ← fetch "DELETE" ("/api/files/" +:+ fileId) server;
           unauthorized ← handleUnauthorizedResponse status;
           if (unauthorized : bool) then mret tt
           else if negb (ok status) then
             data ← json_or_empty (mkErrorBody None) body;
             throw (or_text (message data)
                            "Die Datei konnte nicht gelöscht werden.")
           else
             modify_state (λ s,
               set_files
                 (filter (λ entry, FileRecord.id entry ≠ fileId) (files s)) s);;
             renderFiles;;
             updateStats;;
             showToast "Datei wurde gelöscht." Toast.success)
          (λ msg, showToast (or_text (Some msg)
                               "Die Datei konnte nicht gelöscht werden.")
                            Toast.error)
  end.

(** The assignments to [file] after a successful share request. *)
Definition shared (data : Share.t) (file : FileRecord.t) : FileRecord.t :=
  FileRecord.set_is_public true
    (FileRecord.set_share_token
       (or_else (Share.share_token data) (FileRecord.share_token file))
       (FileRecord.set_share_raw_url
          (or_else (Share.share_raw_url data) (Share.share_url data))
          (FileRecord.set_share_url (Share.share_url data) file))).

(** [file.share_url && (!needsRawLink || file.share_raw_url)] *)
Definition hasLink (needsRawLink : bool) (file : FileRecord.t) : bool :=
  truthy (FileRecord.share_url file)
  && (negb needsRawLink || truthy (FileRecord.share_raw_url file)).

Definition ensureShareLink (fileId : string) (needsRawLink : bool)
    (server : FetchResult Share.t) : M FileRecord.t :=
  s ← get_state;
  match findFile fileId (files s) with
  | None => throw "Datei wurde nicht gefunden."
  | Some (_, file) =>
      if hasLink needsRawLink file then mret file
      else
        '(status, body) ← fetch "POST" ("/api/files/" +:+ fileId +:+ "/share")
                                server;
        unauthorized ← handleUnauthorizedResponse status;
        if (unauthorized : bool) then throw "Authentifizierung erforderlich."
        else if negb (ok status) then
          data ← json_or_empty Share.empty body;
          throw (or_text (Share.message data)
                         "Der Freigabelink konnte nicht erstellt werden.")
        else
          data ← json body;
          let file := shared data file in
          insertOrUpdateFile file;;
          renderFiles;;
          updateStats;;
          s ← get_state;
          mret (match findFile fileId (files s) with
                | Some (_, found) => found
                | None => file
                end)
  end.

End Table.

(** ** The card-grid revision *)

Module Cards.

(** [refreshFiles] from the point where the [fetch] settles; this revision
    has no preferences. *)
Definition refreshFiles_resume (showToastOnSuccess : bool)
    (server : FetchResult Listing.t) : M unit :=
  try_catch
    ('(status, body) ← settle server;
     unauthorized ← handleUnauthorizedResponse status;
     if (unauthorized : bool) then mret tt
     else if negb (ok status) then throw "Fehler beim Laden der Dateien."
     else
       data ← json body;
       modify_state (set_files (default [] (Listing.files data)));;
       modify_state (set_totalSize (or_zero (Listing.total_size data)));;
       modify_state (set_capacity (or_zero (Listing.capacity data)));;
       renderFiles;;
       updateStats;;
       if showToastOnSuccess
       then showToast "Dateiliste aktualisiert." Toast.success
       else mret tt)
    (λ msg, showToast (or_text (Some msg)
                         "Die Dateiliste konnte nicht geladen werden.")
                      Toast.error).

(** [await refreshFiles(showToastOnSuccess)] *)
Definition refreshFiles_await (showToastOnSuccess : bool)
    (server : FetchResult Listing.t) : M unit :=
  emit (Fetch "GET" "/api/files");;
  refreshFiles_resume showToastOnSuccess server.

(** The click listener of a card's delete button; [file] is the record the
    card was built from. *)
Definition onDeleteClick (file : FileRecord.t) (confirmed : bool)
    (server : FetchResult ErrorBody) (listing : FetchResult Listing.t)
  : M unit :=
  if negb confirmed then mret tt
  else
    try_catch
      ('(status, body) ← fetch "DELETE" ("/api/files/" +:+ FileRecord.id file)
                               server;
       unauthorized ← handleUnauthorizedResponse status;
       if (unauthorized : bool) then mret tt
       else if negb (ok status) then
         data ← json_or_empty (mkErrorBody None) body;
         throw (or_text (message data)
                        "Die Datei konnte nicht gelöscht werden.")
       else
         modify_state (λ s,
           set_files
             (filter (λ entry, FileRecord.id entry ≠ FileRecord.id file)
                     (files s)) s);;
         showToast "Datei wurde gelöscht." Toast.success;;
         refreshFiles_await false listing)
      (λ msg, showToast (or_text (Some msg)
                           "Die Datei konnte nicht gelöscht werden.")
                        Toast.error).

(** [copyToClipboard(text, { successMessage })] *)
Definition copyToClipboard (text : option string) (successMessage : string)
  : M unit :=
  if truthy text
  then emit (CopyToClipboard (default EmptyString text) successMessage)
  else mret tt.

(** [ensureShareLink(file, shareArea, shareInput)]; the two DOM handles are
    not modelled. *)
Definition ensureShareLink (file : FileRecord.t)
    (server : FetchResult Share.t) : M unit :=
  if truthy (FileRecord.share_url file) then
    copyToClipboard (FileRecord.share_url file)
                    "Freigabelink wurde in die Zwischenablage kopiert."
  else
    try_catch
      ('(status, body) ← fetch "POST"
                           ("/api/files/" +:+ FileRecord.id file +:+ "/share")
                           server;
       unauthorized ← handleUnauthorizedResponse status;
       if (unauthorized : bool) then mret tt
       else if negb (ok status) then
         data ← json_or_empty Share.empty body;
         throw (or_text (Share.message data)
                        "Der Freigabelink konnte nicht erstellt werden.")
       else
         data ← json body;
         let file :=
           FileRecord.set_share_raw_url (or_else (Share.share_raw_url data) None)
             (FileRecord.set_share_url (Share.share_url data) file) in
         insertOrUpdateFile file;;
         updateStats;;
         renderFiles;;
         copyToClipboard (FileRecord.share_url file)
                         "Freigabelink erstellt und kopiert.")
      (λ msg, showToast (or_text (Some msg)
                           "Der Freigabelink konnte nicht erstellt werden.")
                        Toast.error).

End Cards.

(** ** The event loop *)

Inductive Revision := TableView | CardGrid.

Definition refreshFiles_resume (rev : Revision)
  : bool → FetchResult Listing.t → M unit :=
  match rev with
  | TableView => Table.refreshFiles_resume
  | CardGrid => Cards.refreshFiles_resume
  end.

(** What the platform can deliver to the page. *)
Inductive Event :=
| AddFiles (fileList : list (File.t * string))
| StartUploadClick
| RemoveClick (item : ref)
| XhrProgress (item : ref) (lengthComputable : bool) (loaded total : Z)
| XhrLoad (item : ref) (status : Z) (responseText : Json Upload.t)
| XhrError (item : ref)
| RemovalTimeout (item : ref)
| RefreshClick
| RefreshSettled (showToastOnSuccess : bool) (server : FetchResult Listing.t).

(** Remove the first occurrence of [x]: a request completes, a timer fires. *)
Fixpoint remove_first {A} `{EqDecision A} (x : A) (l : list A) : list A :=
  match l with
  | [] => []
  | y :: rest => if decide (x = y) then rest else y :: remove_first x rest
  end.

Definition handle (rev : Revision) (e : Event) : M unit :=
  match e with
  | AddFiles fileList => addFilesToQueue fileList
  | StartUploadClick => onStartUploadClick
  | RemoveClick item => onRemoveClick item
  | XhrProgress item lengthComputable loaded total =>
      onProgress item lengthComputable loaded total
  | XhrLoad item status responseText =>
      modify_world (λ w, set_xhrs (remove_first item (xhrs w)) w);;
      onLoad item status responseText
  | XhrError item =>
      modify_world (λ w, set_xhrs (remove_first item (xhrs w)) w);;
      onError item
  | RemovalTimeout item =>
      modify_world (λ w, set_timers (remove_first item (timers w)) w);;
      onRemovalTimeout item
  | RefreshClick => refreshFiles true
  | RefreshSettled showToastOnSuccess server =>
      modify_world (λ w,
        set_refreshes (remove_first showToastOnSuccess (refreshes w)) w);;
      refreshFiles_resume rev showToastOnSuccess server
  end.

(** An event can only come from something that exists: a row of the rendered
    queue, a request in flight, an armed timer, an outstanding [fetch]. *)
Definition enabled (w : World) (e : Event) : Prop :=
  match e with
  | AddFiles _ | StartUploadClick | RefreshClick => True
  | RemoveClick item => item ∈ queue (state w)
  | XhrProgress item _ _ _ | XhrLoad item _ _ | XhrError item => item ∈ xhrs w
  | RemovalTimeout item => item ∈ timers w
  | RefreshSettled showToastOnSuccess _ => showToastOnSuccess ∈ refreshes w
  end.

Definition step (rev : Revision) (w : World) (e : Event) : World :=
  fst (run (handle rev e) w).

(** [initialise()]: the state comes from the page, the first refresh is
    already on its way when the function returns. *)
Definition initialise (initialFiles : list FileRecord.t)
    (initialTotalSize initialCapacity : Z) (prefs : Preferences) : World :=
  fst (run (renderFiles;; updateStats;; refreshFiles false)
           (mkWorld (mkState initialFiles initialCapacity initialTotalSize []
                             prefs)
                    [] [] [] [])).

Inductive reachable (rev : Revision) : World → Prop :=
| reachable_init initialFiles initialTotalSize initialCapacity prefs :
    reachable rev
      (initialise initialFiles initialTotalSize initialCapacity prefs)
| reachable_step w e :
    reachable rev w → enabled w e → reachable rev (step rev w e).

(** ** Formatting *)

Definition units : list string := ["B"; "KB"; "MB"; "GB"; "TB"].

(** [2^e <= n / d], for any integer [e]. *)
Definition pow2_le (e n d : Z) : bool :=
  if (0 <=? e)%Z then (d * 2 ^ e <=? n)%Z else (d <=? n * 2 ^ (- e))%Z.

(** [Math.floor(Math.log2(q))] for [q > 0], computed exactly. *)
Definition floor_log2 (q : Q) : Z :=
  let n := Qnum q in
  let d := Z.pos (Qden q) in
  let e := (Z.log2 n - Z.log2 d)%Z in
  if pow2_le e n d then e else (e - 1)%Z.

(** [Math.floor(Math.log(bytes) / Math.log(1024))], computed exactly: a
    double can be off by one from this value only next to a power of 1024,
    and never on the sign. *)
Definition floor_log1024 (q : Q) : Z := (floor_log2 q / 10)%Z.

(** [x.toFixed(digits)] for [0 <= x < 1e21]: the nearest decimal with that
    many digits, ties upward. *)
Definition toFixed (x : Q) (digits : nat) : string :=
  let scale := (10 ^ Z.of_nat digits)%Z in
  let n := Qfloor (x * inject_Z scale + (1 # 2)) in
  let whole := pretty (n / scale)%Z in
  match digits with
  | O => whole
  | _ =>
      let fraction := pretty (n mod scale)%Z in
      whole +:+ "." +:+
      String.concat EmptyString (replicate (digits - String.length fraction) "0")
      +:+ fraction
  end.

(** [units[exponent]] inside a template string. *)
Definition unit_text (exponent : Z) : string :=
  if (exponent <? 0)%Z then "undefined"
  else default "undefined" (units !! Z.to_nat exponent).

Definition formatBytes (bytes : JsNum) : string :=
  match bytes with
  | Finite q =>
      if Qle_bool q 0 then "0 B"
      else
        let exponent :=
          Z.min (floor_log1024 q) (Z.of_nat (length units) - 1) in
        let value := (q / Qpower 1024 exponent)%Q in
        toFixed value
                (if Qle_bool 10 value || (exponent =? 0)%Z then 0 else 1)
        +:+ " " +:+ unit_text exponent
  | _ => "0 B"
  end.

(** ** Specification-side definitions *)

(** The size a record declares; a record without one declares nothing. *)
Definition declared_size (f : FileRecord.t) : Z :=
  match FileRecord.size f with
  | Some n => n
  | None => 0%Z
  end.

(** The registry total as the specification words it: the exact sum of
    [size] over all current records. *)
Fixpoint sum_of_sizes (l : list FileRecord.t) : Z :=
  match l with
  | [] => 0
  | f :: rest => declared_size f + sum_of_sizes rest
  end%Z.

(** [Number.MAX_SAFE_INTEGER] *)
Definition MAX_SAFE_INTEGER : Z := 2 ^ 53 - 1.

(** Byte counts a number holds exactly: no size is negative and the exact
    total is a safe integer. *)
Definition safe_sizes (l : list FileRecord.t) : Prop :=
  Forall (λ f, (0 ≤ declared_size f)%Z) l
  ∧ (sum_of_sizes l ≤ MAX_SAFE_INTEGER)%Z.

(** The only status changes the specification allows a queue item. *)
Definition allowed (s s' : Status) : Prop :=
  s' = s ∨ (s = pending ∧ s' = uploading)
  ∨ (s = uploading ∧ (s' = success ∨ s' = error)).

(** The fields [uploadQueueItem] writes before it sends the request. *)
Definition started (it : QueueItem.t) : QueueItem.t :=
  QueueItem.set_message "Upload läuft..."
    (QueueItem.set_progress (Finite 0) (QueueItem.set_status uploading it)).

(** The item [addFilesToQueue] creates for an accepted candidate. *)
Definition newItem (candidate : File.t * string) : QueueItem.t :=
  QueueItem.mk candidate.2 candidate.1 pending (Finite 0) "Bereit für Upload".

Definition accepted (candidate : File.t * string) : Prop :=
  (File.size candidate.1 <= MAX_FILE_SIZE)%Z.

Global Instance accepted_dec candidate : Decision (accepted candidate).
Proof. unfold accepted. apply _. Defined.

Definition tooLargeToast (file : File.t) : Effect :=
  ShowToast (dquote +:+ File.name file +:+ dquote
             +:+ " ist größer als 500 MB und wurde übersprungen.")
            Toast.error.

(** The invariant of the event loop that the status path rests on: every
    request in flight belongs to an item that is [uploading], and no item
    has two requests. *)
Definition in_flight_uploading (w : World) : Prop :=
  NoDup (xhrs w) ∧
  ∀ r, r ∈ xhrs w →
       ∃ it, heap w !! r = Some it ∧ QueueItem.status it = uploading.

(** ** Closed forms and relations used in the proofs *)

(** The world [addFilesToQueue] leaves when it accepted [new]: the objects
    are allocated at the end of the heap and pushed in order. *)
Definition enqueue (new : list QueueItem.t) (w : World) : World :=
  mkWorld
    (mkState (files (state w)) (capacity (state w)) (totalSize (state w))
             (queue (state w) ++ seq (length (heap w)) (length new))
             (preferences (state w)))
    (heap w ++ new) (xhrs w) (timers w) (refreshes w).

(** The effects of [addFilesToQueue]: one error notification per rejected
    candidate, the queue rendered, and the success notification when at
    least one candidate was accepted. *)
Definition addFiles_effects (fileList : list (File.t * string))
  : list Effect :=
  match fileList with
  | [] => []
  | _ =>
      ((λ candidate, tooLargeToast candidate.1)
         <$> filter (λ candidate, ¬ accepted candidate) fileList)
      ++ RenderQueue
         :: (if (0 <? 0 + length (filter accepted fileList))%nat
             then [ShowToast
                     (pretty (0 + length (filter accepted fileList))
                      +:+ " Datei(en) hinzugefügt. "
                      +:+ "Starte den Upload, wenn du bereit bist.")
                     Toast.success]
             else [])
  end.

(** The world right after [uploadQueueItem(item)] returned. *)
Definition start_item (item : ref) (w : World) : World :=
  set_xhrs (xhrs w ++ [item]) (set_heap (alter started item (heap w)) w).

(** The effects of one [uploadQueueItem(item)] call. *)
Definition start_effects (item : ref) : list Effect :=
  [UpdateQueueVisual item; XhrSend "POST" "/api/upload" item].

(** Some entry of the queue is [pending]. *)
Definition hasPending (w : World) : Prop :=
  ∃ r it, r ∈ queue (state w) ∧ heap w !! r = Some it
          ∧ QueueItem.status it = pending.

(** The ways one event can change the queue item objects and the requests
    in flight: it allocates items; it starts uploads for pending items; it
    writes to one item without touching its status; or it completes the
    request of one item and may set that item's status to [success] or
    [error]. *)
Inductive queue_change (w w' : World) : Prop :=
| change_alloc new :
    heap w' = heap w ++ new →
    xhrs w' = xhrs w →
    queue_change w w'
| change_start added :
    xhrs w' = xhrs w ++ added →
    NoDup added →
    (∀ r, r ∈ added → is_pending (heap w) r = true) →
    (∀ r, heap w' !! r
          = if decide (r ∈ added) then started <$> heap w !! r
            else heap w !! r) →
    queue_change w w'
| change_keep item f :
    heap w' = alter f item (heap w) →
    xhrs w' = xhrs w →
    (∀ it, QueueItem.status (f it) = QueueItem.status it) →
    queue_change w w'
| change_done item f :
    item ∈ xhrs w →
    heap w' = alter f item (heap w) →
    xhrs w' = remove_first item (xhrs w) →
    (∀ it, QueueItem.status (f it) = QueueItem.status it
           ∨ QueueItem.status (f it) = success
           ∨ QueueItem.status (f it) = error) →
    queue_change w w'.

(** The world after a sequence of events. *)
Definition steps (rev : Revision) (w : World) (events : list Event) : World :=
  foldl (step rev) w events.

(** Every event of the sequence is enabled when its turn comes. *)
Fixpoint enabled_all (rev : Revision) (w : World) (events : list Event)
  : Prop :=
  match events with
  | [] => True
  | e :: rest => enabled w e ∧ enabled_all rev (step rev w e) rest
  end.

(** The index [formatBytes] reads [units] at. *)
Definition exponent_of (q : Q) : Z :=
  Z.min (floor_log1024 q) (Z.of_nat (length units) - 1).

(** ** Sample worlds *)

Definition demoFile : FileRecord.t :=
  FileRecord.mk "f1" "report.pdf" (Some 10485760%Z) (Some "application/pdf")
                false None None None (Some "/files/f1")
                (Some "/files/f1/download").

Definition demoShareBody : Share.t :=
  Share.mk (Some "/s/abc") None (Some "abc") None.

Definition demoShare : FetchResult Share.t :=
  Response 200 (JsonObject demoShareBody).

(** A world whose registry holds [demoFile], shared under [url] or not. *)
Definition shareWorld (url : option string) : World :=
  mkWorld
    (mkState [match url with
              | Some _ => Table.shared demoShareBody demoFile
              | None => demoFile
              end]
             0 10485760 [] (mkPreferences false "raw"))
    [] [] [] [].

(** The answer of a server that deleted the file. *)
Definition demoDeleted : FetchResult ErrorBody :=
  Response 200 (JsonObject (mkErrorBody None)).

(** A world with one accepted file in the queue, reached from a fresh page. *)
Definition queuedWorld : World :=
  step TableView (initialise [] 0 0 (mkPreferences false "view"))
       (AddFiles [(File.mk "a.txt" 10485760, "1730000000000-9f3a")]).

(** ** More actions of the table view *)

Module Actions.

(** The assignments to [file] after the share was deleted. *)
Definition hidden (file : FileRecord.t) : FileRecord.t :=
  FileRecord.set_is_public false
    (FileRecord.set_share_token None
       (FileRecord.set_share_raw_url None
          (FileRecord.set_share_url None file))).

Definition hideFileFromPublic (fileId : string)
    (server : FetchResult ErrorBody) : M unit :=
  s ← get_state;
  match findFile fileId (files s) with
  | None => showToast "Datei wurde nicht gefunden." Toast.error
  | Some (_, file) =>
      try_catch
        ('(status, body) ← fetch "DELETE"
                             ("/api/files/" +:+ fileId +:+ "/share") server;
         unauthorized ← handleUnauthorizedResponse status;
         if (unauthorized : bool) then mret tt
         else if negb (ok status) then
           data ← json_or_empty (mkErrorBody None) body;
           throw (or_text (message data)
                          "Der Link konnte nicht versteckt werden.")
         else
           insertOrUpdateFile (hidden file);;
           renderFiles;;
           updateStats;;
           showToast "Datei ist nun privat." Toast.success)
        (λ msg, showToast (or_text (Some msg)
                             "Der Link konnte nicht versteckt werden.")
                          Toast.error)
  end.

(** [state.preferences.copyUrlMode || "view"] *)
Definition copyMode (s : State) : string :=
  or_text (Some (copyUrlMode (preferences s))) "view".

(** The link [copyLinkForFile] takes from the record [ensureShareLink]
    returned. *)
Definition shareLinkOf (mode : string) (updatedFile : FileRecord.t)
  : option string :=
  if String.eqb mode "raw"
  then or_else (FileRecord.share_raw_url updatedFile)
               (FileRecord.share_url updatedFile)
  else FileRecord.share_url updatedFile.

(** [copyLinkForFile(fileId)]; both revisions have the same
    [copyToClipboard]. *)
Definition copyLinkForFile (fileId : string) (server : FetchResult Share.t)
  : M unit :=
  s ← get_state;
  match findFile fileId (files s) with
  | None => showToast "Datei wurde nicht gefunden." Toast.error
  | Some (_, file) =>
      let mode := copyMode s in
      try_catch
        (if String.eqb mode "download" then
           if negb (truthy (FileRecord.download_url file))
           then throw "Kein Downloadlink verfügbar."
           else Cards.copyToClipboard (FileRecord.download_url file)
                                      "Downloadlink kopiert."
         else if String.eqb mode "view" then
           if negb (truthy (FileRecord.view_url file))
           then throw "Kein Vorschaulink verfügbar."
           else Cards.copyToClipboard (FileRecord.view_url file)
                                      "Link kopiert."
         else
           updatedFile ← Table.ensureShareLink fileId (String.eqb mode "raw")
                                               server;
           let shareLink := shareLinkOf mode updatedFile in
           if negb (truthy shareLink)
           then throw "Es konnte kein Freigabelink erzeugt werden."
           else Cards.copyToClipboard shareLink "Freigabelink kopiert.")
        (λ msg, showToast (or_text (Some msg)
                             "Link konnte nicht kopiert werden.")
                          Toast.error)
  end.

End Actions.

(** ** More listeners of the card grid *)

Module CardActions.

(** The click listener of a card's copy button. *)
Definition onCopyClick (file : FileRecord.t) : M unit :=
  if negb (truthy (FileRecord.share_url file)) then
    showToast "Es gibt noch keinen Freigabelink." Toast.info
  else Cards.copyToClipboard (FileRecord.share_url file)
                             "In die Zwischenablage kopiert.".

(** The click listener of a card's direct-link button. *)
Definition onCopyDirectClick (file : FileRecord.t) : M unit :=
  if negb (truthy (FileRecord.share_raw_url file)) then
    showToast "Es gibt noch keinen Direktlink." Toast.info
  else Cards.copyToClipboard (FileRecord.share_raw_url file)
                             "In die Zwischenablage kopiert.".

(** The click listener of a card's revoke button; [file] is the record the
    card was built from, [confirmed] the user's answer to [confirm]. *)
Definition onRevokeClick (file : FileRecord.t) (confirmed : bool)
    (server : FetchResult ErrorBody) : M unit :=
  if negb (truthy (FileRecord.share_url file)) then
    showToast "Es gibt keinen aktiven Link zu entfernen." Toast.info
  else if negb confirmed then mret tt
  else
    try_catch
      ('(status, body) ← fetch "DELETE"
                           ("/api/files/" +:+ FileRecord.id file +:+ "/share")
                           server;
       unauthorized ← handleUnauthorizedResponse status;
       if (unauthorized : bool) then mret tt
       else if negb (ok status) then
         throw "Der Freigabelink konnte nicht entfernt werden."
       else
         insertOrUpdateFile (FileRecord.set_share_url None file);;
         updateStats;;
         renderFiles;;
         showToast "Freigabelink entfernt." Toast.success)
      (λ msg, showToast (or_text (Some msg)
                           "Der Freigabelink konnte nicht entfernt werden.")
                        Toast.error).

End CardActions.

(** ** Storage figures *)

(** [Math.round(x)]: the nearest integer, ties upward. *)
Definition round (x : Q) : Z := Qfloor (x + (1 # 2)).

(** [formatStorage(bytes)] for an integer byte count. *)
Definition formatStorage (bytes : Z) : string :=
  if (1024 ^ 3 <=? bytes)%Z then
    toFixed (inject_Z bytes / inject_Z (1024 ^ 3)) 1 +:+ " GB"
  else if (1024 ^ 2 <=? bytes)%Z then
    toFixed (inject_Z bytes / inject_Z (1024 ^ 2)) 1 +:+ " MB"
  else if (1024 <=? bytes)%Z then
    pretty (round (inject_Z bytes / 1024)) +:+ " KB"
  else pretty bytes +:+ " B".

(** What [updateStats] writes into the page. *)
Record StatsView := mkStatsView {
  usedStorage : string;
  totalStorage : string;
  percent : Q;
  storageProgressClass : string;
  storagePercent : string;
  fileCount : nat;
  shareCount : nat;
}.

Definition statsView (s : State) : StatsView :=
  let used := totalSize s in
  let capacity := if (capacity s =? 0)%Z then 1%Z else capacity s in
  let ratio := (inject_Z used / inject_Z capacity * 100)%Q in
  let percent := if Qle_bool ratio 100 then ratio else 100%Q in
  mkStatsView
    (formatStorage used)
    (formatStorage capacity)
    percent
    ("h-2 rounded-full "
     +:+ (if negb (Qle_bool percent 90) then "bg-red-500"
          else if negb (Qle_bool percent 70) then "bg-orange-400"
          else "bg-primary"))
    (toFixed percent 1 +:+ "%")
    (length (files s))
    (length (filter (λ file, truthy (FileRecord.share_url file) = true)
                    (files s))).

(** A world in which the one queued file is being uploaded. *)
Definition uploadingWorld : World :=
  step TableView queuedWorld StartUploadClick.

(** The fields the [load] listener writes on success. *)
Definition finished (it : QueueItem.t) : QueueItem.t :=
  QueueItem.set_message "Upload abgeschlossen."
    (QueueItem.set_progress (Finite 100) (QueueItem.set_status success it)).

(** The fields a failed upload writes: the progress stays where it was. *)
Definition failed (msg : string) (it : QueueItem.t) : QueueItem.t :=
  QueueItem.set_message msg (QueueItem.set_status error it).

(** The message a failed upload shows for the body the server sent. *)
Definition failureMessage (responseText : Json Upload.t) : string :=
  match responseText with
  | JsonObject data =>
      or_text (Upload.message data) "Der Upload ist fehlgeschlagen."
  | _ => "Der Upload ist fehlgeschlagen."
  end.

Definition uploadedToast (it : QueueItem.t) : Effect :=
  ShowToast (dquote +:+ File.name (QueueItem.file it) +:+ dquote
             +:+ " wurde erfolgreich hochgeladen.") Toast.success.

(** The state a successful refresh leaves, by revision. *)
Definition refreshed (rev : Revision) (data : Listing.t) (s : State) : State :=
  mkState
    (default [] (Listing.files data))
    (or_zero (Listing.capacity data))
    (or_zero (Listing.total_size data))
    (queue s)
    (match rev, Listing.preferences data with
     | TableView, Some prefs =>
         mkPreferences (hide_media_default prefs)
           (if truthy (copy_url_mode prefs)
            then default EmptyString (copy_url_mode prefs)
            else copyUrlMode (preferences s))
     | _, _ => preferences s
     end).

(** The text of the error notification for a refused request: the server's
    message when the body has one, else the action's own text; a body that
    is [null] surfaces the message of the engine's [TypeError]. *)
Definition errorText (body : Json ErrorBody) (fallback : string) : string :=
  match body with
  | JsonObject data => or_text (message data) fallback
  | Unparsable _ => fallback
  | JsonNull typeError => or_text (Some typeError) fallback
  end.

Definition notFoundToast : Effect :=
  ShowToast "Datei wurde nicht gefunden." Toast.error.

Definition sharedFile : FileRecord.t := Table.shared demoShareBody demoFile.

(** One digit after the point: the tenths, rounded half up, written as
    whole part, point, last digit. *)
Definition tenths (bytes unit : Z) : Z :=
  ((20 * bytes + unit) / (2 * unit))%Z.

Definition one_decimal (n : Z) : string :=
  pretty (n / 10)%Z +:+ "." +:+ pretty (n mod 10)%Z.

(** The shape the upload queue keeps in the event loop: no entry twice,
    every entry an allocated item, and a removal timer armed only for an
    item whose upload succeeded. *)
Definition queue_well_formed (w : World) : Prop :=
  NoDup (queue (state w))
  ∧ (∀ r, r ∈ queue (state w) → is_Some (heap w !! r))
  ∧ (∀ r, r ∈ timers w →
          ∃ it, heap w !! r = Some it ∧ QueueItem.status it = success).

(** What one event does to the list of queue entries: it drops some and
    appends freshly allocated ones. *)
Definition queue_step (w w' : World) : Prop :=
  ∃ q n, q `sublist_of` queue (state w)
         ∧ queue (state w') = q ++ seq (length (heap w)) n
         ∧ ∀ r, r ∈ seq (length (heap w)) n → is_Some (heap w' !! r).

(** The entries of the queue that are [pending], in queue order. *)
Definition pendingEntries (w : World) : list ref :=
  filter (λ r, is_pending (heap w) r = true) (queue (state w)).

(** A registry whose one record is as large as a number can count exactly,
    and a one-byte descriptor to add to it. *)
Definition archiveFile : FileRecord.t :=
  FileRecord.mk "f0" "archive.tar" (Some 9007199254740992%Z) None
                false None None None None None.

Definition noteFile : FileRecord.t :=
  FileRecord.mk "f2" "note.txt" (Some 1%Z) (Some "text/plain")
                false None None None None None.

Definition archiveState : State :=
  mkState [archiveFile] 0 9007199254740992 [] (mkPreferences false "view").

(** * Proofs *)

(** ** Running handlers *)

Lemma bind_unfold {A B} (m : M A) (k : A → M B) w :
  (m ≫= k) w =
  match m w with
  | (Normal a, w1, e1) => after e1 (k a w1)
  | (Throw msg, w1, e1) => (Throw msg, w1, e1)
  end.
Proof. reflexivity. Qed.

Lemma after_nil {A} (r : Completion A * World * list Effect) : after [] r = r.
Proof. by destruct r as [[? ?] ?]. Qed.

Lemma after_after {A} es1 es2 (r : Completion A * World * list Effect) :
  after es1 (after es2 r) = after (es1 ++ es2) r.
Proof. destruct r as [[? ?] ?]. cbn. by rewrite app_assoc. Qed.

Lemma after_triple {A} es (c : Completion A) w es' :
  after es (c, w, es') = (c, w, es ++ es').
Proof. reflexivity. Qed.

Lemma bind_mret {A B} (a : A) (k : A → M B) w : (mret a ≫= k) w = k a w.
Proof. rewrite bind_unfold. cbn. apply after_nil. Qed.

Lemma bind_throw {A B} msg (k : A → M B) w :
  (throw msg ≫= k) w = (Throw msg, w, []).
Proof. reflexivity. Qed.

Lemma bind_emit {B} e (k : unit → M B) w :
  (emit e ≫= k) w = after [e] (k tt w).
Proof. reflexivity. Qed.

Lemma bind_get_state {B} (k : State → M B) w :
  (get_state ≫= k) w = k (state w) w.
Proof. rewrite bind_unfold. cbn. apply after_nil. Qed.

Lemma bind_get_world {B} (k : World → M B) w : (get_world ≫= k) w = k w w.
Proof. rewrite bind_unfold. cbn. apply after_nil. Qed.

Lemma bind_modify_state {B} f (k : unit → M B) w :
  (modify_state f ≫= k) w = k tt (set_state (f (state w)) w).
Proof. rewrite bind_unfold. cbn. apply after_nil. Qed.

Lemma bind_modify_world {B} f (k : unit → M B) w :
  (modify_world f ≫= k) w = k tt (f w).
Proof. rewrite bind_unfold. cbn. apply after_nil. Qed.

Lemma bind_assoc {A B C} (m : M A) (f : A → M B) (g : B → M C) w :
  ((m ≫= f) ≫= g) w = (m ≫= λ a, f a ≫= g) w.
Proof.
  rewrite !bind_unfold. destruct (m w) as [[[a|msg] w1] e1]; [|done].
  rewrite bind_unfold. destruct (f a w1) as [[[b|msg] w2] e2]; cbn; [|done].
  destruct (g b w2) as [[c w3] e3]. cbn. by rewrite app_assoc.
Qed.

Lemma mret_run {A} (a : A) w : (mret a : M A) w = (Normal a, w, []).
Proof. reflexivity. Qed.

Lemma emit_run e w : emit e w = (Normal tt, w, [e]).
Proof. reflexivity. Qed.

Lemma throw_run {A} msg w : (throw msg : M A) w = (Throw msg, w, []).
Proof. reflexivity. Qed.

Lemma modify_world_run f w : modify_world f w = (Normal tt, f w, []).
Proof. reflexivity. Qed.

Lemma modify_state_run f w :
  modify_state f w = (Normal tt, set_state (f (state w)) w, []).
Proof. reflexivity. Qed.

Lemma bind_read_item {B} item (k : QueueItem.t → M B) w :
  (read_item item ≫= k) w
  = match heap w !! item with
    | Some it => k it w
    | None => (Throw danglingReference, w, [])
    end.
Proof.
  rewrite bind_unfold. unfold read_item.
  destruct (heap w !! item); [apply after_nil|done].
Qed.

(** Normalise a handler applied to a world: binds to the right, primitives
    executed, effects collected in [after]. *)
Ltac mstep :=
  repeat first
    [ rewrite bind_assoc | rewrite bind_mret | rewrite bind_throw
    | rewrite bind_emit | rewrite bind_get_state | rewrite bind_get_world
    | rewrite bind_modify_state | rewrite bind_modify_world
    | rewrite after_after | rewrite after_triple | rewrite after_nil
    | rewrite mret_run | rewrite bind_read_item | rewrite emit_run
    | rewrite throw_run | rewrite modify_world_run | rewrite modify_state_run ].

Ltac mrun :=
  repeat (progress (mstep; cbn [settle parse object json_or_empty negb])).

Ltac munfold :=
  unfold showToast, renderFiles, updateStats, renderQueue, updateQueueVisual,
    redirectToLogin, fetch, json, insertOrUpdateFile, update_item, push_item,
    refreshFiles, scheduleQueueRemoval.

Lemma read_item_Some item w it :
  heap w !! item = Some it → read_item item w = (Normal it, w, []).
Proof. intros H. unfold read_item. by rewrite H. Qed.

(** ** The registry *)

Lemma to_double_exact (n : Z) :
  (Z.abs n ≤ MAX_SAFE_INTEGER)%Z → to_double n = n.
Proof.
  unfold MAX_SAFE_INTEGER, to_double. intros Hn. cbn zeta.
  destruct (Z.leb_spec (Z.log2 (Z.abs n) - 52) 0) as [|He]; [done|].
  exfalso.
  assert (Hpos : (0 < Z.abs n)%Z).
  { destruct (Z.abs n) eqn:Ha; [cbn in He|..]; lia. }
  pose proof (proj1 (Z.log2_lt_pow2 (Z.abs n) 53 Hpos)) as Hlog. lia.
Qed.

Lemma or_zero_declared (f : FileRecord.t) :
  or_zero (FileRecord.size f) = declared_size f.
Proof. unfold or_zero, declared_size. by destruct (FileRecord.size f). Qed.

Lemma sum_of_sizes_nonneg (l : list FileRecord.t) :
  Forall (λ f, (0 ≤ declared_size f)%Z) l → (0 ≤ sum_of_sizes l)%Z.
Proof. induction 1; cbn; lia. Qed.

Lemma reduceSize_from (l : list FileRecord.t) (acc : Z) :
  (0 ≤ acc)%Z →
  Forall (λ f, (0 ≤ declared_size f)%Z) l →
  (acc + sum_of_sizes l ≤ MAX_SAFE_INTEGER)%Z →
  foldl (λ total current, js_add total (or_zero (FileRecord.size current)))
        acc l
  = (acc + sum_of_sizes l)%Z.
Proof.
  revert acc. induction l as [|f l IH]; intros acc Hacc Hsizes Hsum; simpl.
  - lia.
  - apply Forall_cons in Hsizes as [Hf Hl].
    pose proof (sum_of_sizes_nonneg l Hl) as Hrest.
    cbn [sum_of_sizes] in Hsum.
    assert (Hstep : js_add acc (or_zero (FileRecord.size f))
                    = (acc + declared_size f)%Z).
    { unfold js_add. rewrite or_zero_declared. apply to_double_exact. lia. }
    rewrite Hstep, IH by (done || lia). lia.
Qed.

(** Within the safe integers the total the code computes is the exact
    sum. *)
Lemma reduceSize_sum l : safe_sizes l → reduceSize l = sum_of_sizes l.
Proof.
  intros [Hsizes Hsum]. unfold reduceSize.
  rewrite reduceSize_from by (done || lia). lia.
Qed.

Lemma findFile_Some fileId l i f :
  findFile fileId l = Some (i, f) ↔
  l !! i = Some f ∧ FileRecord.id f = fileId
  ∧ ∀ j e, l !! j = Some e → j < i → FileRecord.id e ≠ fileId.
Proof. unfold findFile. by rewrite list_find_Some. Qed.

Lemma findFile_None fileId l :
  findFile fileId l = None ↔ ∀ e, e ∈ l → FileRecord.id e ≠ fileId.
Proof. unfold findFile. rewrite list_find_None, Forall_forall. done. Qed.

Lemma findFile_insert l i old file :
  findFile (FileRecord.id file) l = Some (i, old) →
  findFile (FileRecord.id file) (<[i := file]> l) = Some (i, file).
Proof.
  rewrite !findFile_Some. intros (Hi & Hid & Hlt). split_and!.
  - apply list_lookup_insert_eq. by eapply lookup_lt_Some.
  - done.
  - intros j e Hj Hji. rewrite list_lookup_insert_ne in Hj by lia. eauto.
Qed.

Lemma findFile_head file l :
  findFile (FileRecord.id file) (file :: l) = Some (0, file).
Proof.
  apply findFile_Some. split_and!; [done..|]. intros j e _ Hj. lia.
Qed.

(** C5. Insert-or-update replaces the first record with the descriptor's
    identifier when there is one and prepends the descriptor otherwise;
    afterwards [totalSize] is what the reduction over the registry gives,
    which is the exact sum of [size] as long as no size is negative and the
    exact sum is a safe integer; recomputing it gives the same value, and a
    second insert-or-update of the same descriptor changes nothing. *)
Theorem insertOrUpdateFile_total (file : FileRecord.t) (s : State) :
  let s' := insertOrUpdateFile_state file s in
  ((∃ i old, files s !! i = Some old
             ∧ FileRecord.id old = FileRecord.id file
             ∧ (∀ j e, files s !! j = Some e → j < i →
                       FileRecord.id e ≠ FileRecord.id file)
             ∧ files s' = <[i := file]> (files s))
   ∨ ((∀ e, e ∈ files s → FileRecord.id e ≠ FileRecord.id file)
      ∧ files s' = file :: files s))
  ∧ (safe_sizes (files s') → totalSize s' = sum_of_sizes (files s'))
  ∧ reduceSize (files s') = totalSize s'
  ∧ insertOrUpdateFile_state file s' = s'
  ∧ ∀ w, insertOrUpdateFile file w
         = (Normal tt, set_state (insertOrUpdateFile_state file (state w)) w, []).
Proof.
  intros s'. subst s'. unfold insertOrUpdateFile_state.
  destruct (findFile (FileRecord.id file) (files s)) as [[i old]|] eqn:Hfind.
  - split_and!.
    + left. apply findFile_Some in Hfind as (? & ? & ?). eauto 10.
    + apply reduceSize_sum.
    + done.
    + cbn [files set_files set_totalSize].
      rewrite (findFile_insert _ _ _ _ Hfind), list_insert_insert_eq. done.
    + done.
  - split_and!.
    + right. split; [|done]. by apply findFile_None.
    + apply reduceSize_sum.
    + done.
    + cbn [files set_files set_totalSize]. rewrite findFile_head. done.
    + done.
Qed.

Lemma insertOrUpdateFile_total_witness :
  totalSize (insertOrUpdateFile_state noteFile
               (state (shareWorld None))) = 10485761%Z.
Proof.
  apply (proj1 (proj2 (insertOrUpdateFile_total noteFile
                         (state (shareWorld None))))).
  split; [repeat constructor; discriminate|discriminate].
Defined.

(** Past the safe integers the total is not the exact sum: one byte added
    to a registry of [2^53] bytes leaves the total at [2^53]. *)
Lemma insertOrUpdateFile_total_inexact :
  files (insertOrUpdateFile_state noteFile archiveState)
  = [noteFile; archiveFile]
  ∧ totalSize (insertOrUpdateFile_state noteFile archiveState)
    = 9007199254740992%Z
  ∧ sum_of_sizes (files (insertOrUpdateFile_state noteFile archiveState))
    = 9007199254740993%Z
  ∧ totalSize (insertOrUpdateFile_state noteFile archiveState)
    ≠ sum_of_sizes (files (insertOrUpdateFile_state noteFile archiveState)).
Proof. split_and!; [reflexivity..|discriminate]. Qed.

(** ** Full refresh *)

Lemma handleUnauthorizedResponse_other status w :
  status ≠ 401%Z → handleUnauthorizedResponse status w = (Normal false, w, []).
Proof.
  intros H. unfold handleUnauthorizedResponse.
  by rewrite (proj2 (Z.eqb_neq status 401) H).
Qed.

(** C6. A refresh whose answer is not 2xx (and not 401), or whose body does
    not parse, shows one error notification and leaves the whole world, and
    with it the registry, the total size, the capacity and the preferences,
    exactly as it was. *)
Theorem refreshFiles_failure_atomic (rev : Revision) (showToastOnSuccess : bool)
    (status : Z) (body : Json Listing.t) (w : World) :
  status ≠ 401%Z →
  ok status = false ∨ (∃ msg, body = Unparsable msg) →
  (∃ msg,
     run (refreshFiles_resume rev showToastOnSuccess (Response status body)) w
     = (w, [ShowToast msg Toast.error]))
  ∧ state (step rev w (RefreshSettled showToastOnSuccess
                                      (Response status body)))
    = state w.
Proof.
  intros H401 Hfail.
  assert (Hall : ∀ w,
    ∃ msg,
      run (refreshFiles_resume rev showToastOnSuccess (Response status body)) w
      = (w, [ShowToast msg Toast.error])); [intros w0|].
  2: { split; [apply Hall|]. unfold step. cbn [handle]. unfold run.
       rewrite bind_modify_world.
       destruct (Hall (set_refreshes
                         (remove_first showToastOnSuccess (refreshes w)) w))
         as [msg Hrun].
       unfold run in Hrun.
       destruct (refreshFiles_resume _ _ _ _) as [[c w1] e1].
       by injection Hrun as -> _. }
  clear w. rename w0 into w.
  assert (Hrun : ∀ k : bool → M unit,
    (handleUnauthorizedResponse status ≫= k) w = k false w).
  { intros k. rewrite bind_unfold, handleUnauthorizedResponse_other by done.
    by destruct (k false w) as [[? ?] ?]. }
  destruct rev; unfold run, refreshFiles_resume, Table.refreshFiles_resume,
    Cards.refreshFiles_resume, try_catch;
    rewrite bind_unfold; cbn [settle mret M_ret app]; rewrite Hrun;
    (destruct (ok status) eqn:Hok;
     [destruct Hfail as [?|[msg ->]]; [done|]; cbn; eauto | cbn; eauto]).
Qed.

Lemma refreshFiles_rejected_atomic rev showToastOnSuccess reason w :
  ∃ msg,
    run (refreshFiles_resume rev showToastOnSuccess (Rejected reason)) w
    = (w, [ShowToast msg Toast.error]).
Proof. destruct rev; cbn; eauto. Qed.

Lemma refreshFiles_failure_atomic_witness :
  ∃ msg,
    run (refreshFiles_resume TableView true (Response 500 (JsonNull "data is null")))
        (initialise [] 0 0 (mkPreferences false "view"))
    = (initialise [] 0 0 (mkPreferences false "view"),
       [ShowToast msg Toast.error]).
Proof.
  apply (proj1 (refreshFiles_failure_atomic TableView true 500 (JsonNull "data is null")
                  (initialise [] 0 0 (mkPreferences false "view"))
                  ltac:(lia) (or_introl eq_refl))).
Defined.

(** ** Upload attempts that end in 401 *)

(** C8. When an upload completes with status 401 the [load] listener
    redirects to the login page and does nothing else: the item keeps its
    status, progress and message, and the registry is not touched.  The
    only change in the world is that the request is no longer in flight. *)
Theorem upload_401_redirects_only (rev : Revision) (item : ref)
    (responseText : Json Upload.t) (w : World) :
  run (onLoad item 401 responseText) w = (w, [SetLocation "/login"])
  ∧ run (handle rev (XhrLoad item 401 responseText)) w
    = (set_xhrs (remove_first item (xhrs w)) w, [SetLocation "/login"])
  ∧ heap (step rev w (XhrLoad item 401 responseText)) = heap w
  ∧ state (step rev w (XhrLoad item 401 responseText)) = state w.
Proof. done. Qed.

(** ** Removing a queue item *)

Lemma entry_id_filter_self (h : list QueueItem.t) (item : ref) it
    (l : list ref) :
  h !! item = Some it →
  item ∉ filter (λ queueItem, entry_id h queueItem ≠ Some (QueueItem.id it)) l.
Proof.
  intros H Hin. apply list_elem_of_filter in Hin as [Hne _].
  apply Hne. unfold entry_id. by rewrite H.
Qed.

(** C7. Clicking remove on an item takes it out of the queue exactly when
    its status is [pending]: then the queue keeps the entries with another
    identifier and is rendered again; for every other status the world is
    unchanged and one informational notification is shown. *)
Theorem remove_iff_pending (item : ref) (it : QueueItem.t) (w : World) :
  heap w !! item = Some it →
  item ∈ queue (state w) →
  let w' := (run (onRemoveClick item) w).1 in
  let effects := (run (onRemoveClick item) w).2 in
  (QueueItem.status it = pending →
     queue (state w')
     = filter (λ queueItem,
                 entry_id (heap w) queueItem ≠ Some (QueueItem.id it))
              (queue (state w))
     ∧ heap w' = heap w
     ∧ effects = [RenderQueue])
  ∧ (QueueItem.status it ≠ pending →
       w' = w
       ∧ effects
         = [ShowToast "Nur wartende Dateien können entfernt werden."
                      Toast.info])
  ∧ (item ∉ queue (state w') ↔ QueueItem.status it = pending).
Proof.
  intros Hit Hin. unfold run, onRemoveClick.
  rewrite bind_unfold, (read_item_Some _ _ _ Hit).
  destruct (decide (QueueItem.status it = pending)) as [Hp|Hp].
  - rewrite bool_decide_false by (intros Hne; by apply Hne). cbn. split_and!.
    + done.
    + done.
    + split; [done|]. intros _. by apply entry_id_filter_self.
  - rewrite bool_decide_true by done. cbn. split_and!; [done|done|].
    split; [|done]. intros Hout. by destruct (Hout Hin).
Qed.

Lemma remove_iff_pending_witness :
  let w := mkWorld (mkState [] 0 0 [0] (mkPreferences false "view"))
             [QueueItem.mk "a" (File.mk "a.txt" 1) pending (Finite 0)
                           EmptyString]
             [] [] [] in
  0 ∉ queue (state (run (onRemoveClick 0) w).1) ↔ pending = pending.
Proof.
  intros w.
  apply (remove_iff_pending 0
           (QueueItem.mk "a" (File.mk "a.txt" 1) pending (Finite 0)
                         EmptyString) w);
    [reflexivity | vm_compute; left].
Defined.


(** ** Share links *)

Lemma shared_id data file :
  FileRecord.id (Table.shared data file) = FileRecord.id file.
Proof. reflexivity. Qed.

Lemma shared_hasLink data file needsRawLink :
  truthy (FileRecord.share_url (Table.shared data file)) = true →
  Table.hasLink needsRawLink (Table.shared data file) = true.
Proof.
  unfold Table.hasLink, Table.shared, or_else. cbn. intros Hurl.
  destruct (truthy (Share.share_raw_url data)) eqn:Hraw;
    rewrite ?Hraw, ?Hurl; by destruct needsRawLink.
Qed.

Lemma ensureShareLink_has_link fileId needsRawLink server w i file :
  findFile fileId (files (state w)) = Some (i, file) →
  Table.hasLink needsRawLink file = true →
  Table.ensureShareLink fileId needsRawLink server w = (Normal file, w, []).
Proof.
  intros Hfind Hlink. unfold Table.ensureShareLink.
  mstep. rewrite Hfind, Hlink. reflexivity.
Qed.

(** What a call that had to ask the server leaves behind when it returns. *)
Lemma ensureShareLink_after_request fileId needsRawLink server w i file
    file1 w1 e1 :
  findFile fileId (files (state w)) = Some (i, file) →
  Table.hasLink needsRawLink file = false →
  Table.ensureShareLink fileId needsRawLink server w = (Normal file1, w1, e1) →
  ∃ data, file1 = Table.shared data file
          ∧ findFile fileId (files (state w1)) = Some (i, file1).
Proof.
  intros Hfind Hlink. unfold Table.ensureShareLink.
  mstep. rewrite Hfind, Hlink.
  assert (Hid : FileRecord.id file = fileId)
    by (apply findFile_Some in Hfind; tauto).
  assert (Hnew : ∀ data, findFile fileId
                   (files (insertOrUpdateFile_state (Table.shared data file)
                                                    (state w)))
                 = Some (i, Table.shared data file)).
  { intros data. unfold insertOrUpdateFile_state. rewrite shared_id, Hid, Hfind.
    cbn [files set_files set_totalSize].
    pose proof (findFile_insert (files (state w)) i file
                  (Table.shared data file)) as H.
    rewrite shared_id, Hid in H. by apply H. }
  munfold. unfold handleUnauthorizedResponse.
  destruct server as [reason|status body]; mrun; [discriminate|].
  destruct (status =? 401)%Z eqn:H401; mrun; [discriminate|].
  destruct (ok status) eqn:Hok; destruct body as [msg|typeError|data]; mrun;
    try discriminate.
  cbn [state set_state]. rewrite Hnew. intros [= <- <- <-].
  exists data. split; [done|]. cbn [state set_state]. apply Hnew.
Qed.

(** C1. [ensureShareLink] of the table view is idempotent at the client.
    When the record found for the identifier already carries [share_url]
    (and [share_raw_url] when the raw link is required) the call makes no
    request, has no other effect, leaves the world as it is and returns
    that record.  And when a first call returned a record with a share
    link, whichever way it got it, a second call right after it makes no
    request and returns the identical record. *)
Theorem ensureShareLink_idempotent (fileId : string) (needsRawLink : bool)
    (server server' : FetchResult Share.t) (w : World) :
  (∀ i file,
     findFile fileId (files (state w)) = Some (i, file) →
     Table.hasLink needsRawLink file = true →
     Table.ensureShareLink fileId needsRawLink server w = (Normal file, w, []))
  ∧ (∀ file1 w1 e1,
       Table.ensureShareLink fileId needsRawLink server w
       = (Normal file1, w1, e1) →
       truthy (FileRecord.share_url file1) = true →
       Table.ensureShareLink fileId needsRawLink server' w1
       = (Normal file1, w1, [])).
Proof.
  split.
  - intros i file. apply ensureShareLink_has_link.
  - intros file1 w1 e1 Hfirst Hurl.
    destruct (findFile fileId (files (state w))) as [[i file]|] eqn:Hfind.
    + destruct (Table.hasLink needsRawLink file) eqn:Hlink.
      * rewrite (ensureShareLink_has_link _ _ _ _ _ _ Hfind Hlink) in Hfirst.
        injection Hfirst as <- <- <-.
        by apply (ensureShareLink_has_link _ _ _ _ i).
      * destruct (ensureShareLink_after_request _ _ _ _ _ _ _ _ _
                    Hfind Hlink Hfirst) as (data & -> & Hfound).
        apply (ensureShareLink_has_link _ _ _ _ i); [done|].
        by apply shared_hasLink.
    + unfold Table.ensureShareLink in Hfirst.
      rewrite bind_get_state, Hfind in Hfirst. discriminate.
Qed.

Lemma ensureShareLink_idempotent_witness :
  Table.ensureShareLink "f1" true demoShare (shareWorld None)
  = (Normal (Table.shared demoShareBody demoFile),
     shareWorld (Some "/s/abc"), 
     [Fetch "POST" "/api/files/f1/share"; RenderFiles; UpdateStats])
  ∧ Table.ensureShareLink "f1" true (Rejected "offline")
                          (shareWorld (Some "/s/abc"))
    = (Normal (Table.shared demoShareBody demoFile),
       shareWorld (Some "/s/abc"), []).
Proof.
  assert (Hfirst :
    Table.ensureShareLink "f1" true demoShare (shareWorld None)
    = (Normal (Table.shared demoShareBody demoFile),
       shareWorld (Some "/s/abc"),
       [Fetch "POST" "/api/files/f1/share"; RenderFiles; UpdateStats]))
    by reflexivity.
  split; [exact Hfirst|].
  exact (proj2 (ensureShareLink_idempotent "f1" true demoShare
                  (Rejected "offline") (shareWorld None))
               _ _ _ Hfirst eq_refl).
Defined.

Lemma cards_ensureShareLink_has_link file server w :
  truthy (FileRecord.share_url file) = true →
  Cards.ensureShareLink file server w
  = (Normal tt, w,
     [CopyToClipboard (default EmptyString (FileRecord.share_url file))
        "Freigabelink wurde in die Zwischenablage kopiert."]).
Proof.
  intros Hurl. unfold Cards.ensureShareLink, Cards.copyToClipboard.
  by rewrite Hurl.
Qed.

(** ** Delete *)

Lemma ok_not_401 status : ok status = true → (status =? 401)%Z = false.
Proof. unfold ok. lia. Qed.

(** The table view's [deleteFile] on a 2xx answer: local removal and a
    re-render, and that is all.  [totalSize] is not recomputed. *)
Lemma table_deleteFile_ok fileId status body w i file :
  findFile fileId (files (state w)) = Some (i, file) →
  ok status = true →
  Table.deleteFile fileId true (Response status body) w
  = (Normal tt,
     set_state
       (set_files (filter (λ entry, FileRecord.id entry ≠ fileId)
                          (files (state w))) (state w)) w,
     [Fetch "DELETE" ("/api/files/" +:+ fileId); RenderFiles; UpdateStats;
      ShowToast "Datei wurde gelöscht." Toast.success]).
Proof.
  intros Hfind Hok. unfold Table.deleteFile, try_catch.
  mstep. rewrite Hfind. cbn [negb]. munfold.
  unfold handleUnauthorizedResponse. mrun.
  rewrite (ok_not_401 _ Hok). mrun. rewrite Hok. mrun. reflexivity.
Qed.

(** The card grid's delete listener on a 2xx answer: the record is removed,
    the success notification shown, and then a full refresh runs in the
    world that no longer holds the record. *)
Lemma cards_onDeleteClick_refreshes file status body listing w :
  ok status = true →
  Cards.onDeleteClick file true (Response status body) listing w
  = after [Fetch "DELETE" ("/api/files/" +:+ FileRecord.id file);
           ShowToast "Datei wurde gelöscht." Toast.success;
           Fetch "GET" "/api/files"]
      (Cards.refreshFiles_resume false listing
         (set_state
            (set_files
               (filter (λ entry, FileRecord.id entry ≠ FileRecord.id file)
                       (files (state w))) (state w)) w)).
Proof.
  intros Hok. unfold Cards.onDeleteClick, try_catch. cbn [negb]. munfold.
  unfold handleUnauthorizedResponse, Cards.refreshFiles_await. mrun.
  rewrite (ok_not_401 _ Hok). mrun. rewrite Hok. mrun.
  destruct listing as [reason|status' body']; [reflexivity|].
  unfold Cards.refreshFiles_resume, try_catch, handleUnauthorizedResponse.
  mrun. munfold.
  destruct (status' =? 401)%Z; mrun; [reflexivity|].
  destruct (ok status'); mrun; [|reflexivity].
  destruct body' as [msg|typeError|data]; mrun; reflexivity.
Qed.

(** C2 (table view). Deleting the only file, of 10 MiB, answered with 200:
    the record is gone at once, but the only request made is the DELETE
    itself.  No listing is fetched, and [totalSize] still counts the deleted
    file although the registry is empty. *)
Theorem table_deleteFile_skips_refresh :
  let result := run (Table.deleteFile "f1" true demoDeleted) (shareWorld None) in
  files (state (fst result)) = []
  ∧ snd result = [Fetch "DELETE" "/api/files/f1"; RenderFiles; UpdateStats;
                  ShowToast "Datei wurde gelöscht." Toast.success]
  ∧ (Fetch "GET" "/api/files" ∉ snd result)
  ∧ totalSize (state (fst result)) = 10485760%Z
  ∧ sum_of_sizes (files (state (fst result))) = 0%Z.
Proof.
  cbn zeta. unfold run, demoDeleted.
  rewrite (table_deleteFile_ok "f1" 200 _ (shareWorld None) 0 demoFile)
    by reflexivity.
  split_and!; try reflexivity.
  intros Hin. repeat (apply elem_of_cons in Hin as [Heq|Hin]; [discriminate|]).
  by apply elem_of_nil in Hin.
Qed.

(** ** Adding files *)

Lemma enqueue_nil w : enqueue [] w = w.
Proof.
  destruct w as [[] ? ? ? ?]. unfold enqueue. cbn. by rewrite !app_nil_r.
Qed.

Lemma enqueue_push it new w :
  enqueue new (set_state (set_queue (queue (state w) ++ [length (heap w)])
                                    (state w))
                         (set_heap (heap w ++ [it]) w))
  = enqueue (it :: new) w.
Proof.
  unfold enqueue. cbn. rewrite length_app, <- !app_assoc. cbn.
  by rewrite Nat.add_1_r.
Qed.

Lemma tooLarge_not_accepted (file : File.t) (newId : string) :
  (File.size file >? MAX_FILE_SIZE)%Z
  = negb (bool_decide (accepted (file, newId))).
Proof.
  unfold accepted. cbn [fst]. rewrite Z.gtb_ltb.
  destruct (Z.ltb_spec MAX_FILE_SIZE (File.size file)).
  - rewrite bool_decide_false by lia. done.
  - rewrite bool_decide_true by lia. done.
Qed.

(** The loop of [addFilesToQueue], in closed form. *)
Lemma addFiles_each_run (fileList : list (File.t * string)) :
  ∀ (addedCount : nat) (w : World),
    addFiles_each fileList addedCount w
    = (Normal (addedCount + length (filter accepted fileList)),
       enqueue (newItem <$> filter accepted fileList) w,
       (λ candidate, tooLargeToast candidate.1)
         <$> filter (λ candidate, ¬ accepted candidate) fileList).
Proof.
  induction fileList as [|[file newId] rest IH]; intros addedCount w.
  - cbn. by rewrite enqueue_nil, Nat.add_0_r.
  - cbn [addFiles_each]. rewrite (tooLarge_not_accepted file newId).
    rewrite !filter_cons.
    destruct (decide (accepted (file, newId))) as [Hacc|Hrej].
    + rewrite bool_decide_true by done. cbn [negb].
      rewrite decide_False by tauto.
      munfold. mstep. rewrite IH. cbn [fmap list_fmap length].
      rewrite enqueue_push. do 2 f_equal. f_equal. lia.
    + rewrite bool_decide_false by done. cbn [negb].
      rewrite decide_True by tauto.
      munfold. mstep. rewrite IH. reflexivity.
Qed.

Lemma addFilesToQueue_run (fileList : list (File.t * string)) (w : World) :
  run (addFilesToQueue fileList) w
  = (enqueue (newItem <$> filter accepted fileList) w,
     addFiles_effects fileList).
Proof.
  unfold run, addFilesToQueue, addFiles_effects.
  destruct fileList as [|candidate rest] eqn:Hlist.
  { cbn. by rewrite enqueue_nil. }
  rewrite <- Hlist. clear Hlist candidate rest.
  rewrite bind_unfold, addFiles_each_run. munfold. mstep.
  destruct (0 <? 0 + length (filter accepted fileList))%nat; mstep;
    by rewrite <- ?app_assoc, ?app_nil_r.
Qed.

Lemma addFiles_effects_local fileList :
  Forall (λ e, is_network e = false) (addFiles_effects fileList).
Proof.
  unfold addFiles_effects. destruct fileList as [|c rest]; [constructor|].
  apply Forall_app. split.
  - apply Forall_fmap, Forall_forall. by intros.
  - destruct (0 <? _)%nat; repeat constructor.
Qed.

(** C4. [addFilesToQueue] creates an item, [pending] with progress 0, for
    exactly the candidates of at most 500 MiB, in order, at the end of the
    queue; for every larger candidate it creates none and shows an error
    notification; and it makes no request at all. *)
Theorem addFilesToQueue_size_limit (fileList : list (File.t * string))
    (w : World) :
  let w' := fst (run (addFilesToQueue fileList) w) in
  let effects := snd (run (addFilesToQueue fileList) w) in
  MAX_FILE_SIZE = (500 * 1024 * 1024)%Z
  ∧ w' = enqueue (newItem <$> filter accepted fileList) w
  ∧ heap w' = heap w ++ (newItem <$> filter accepted fileList)
  ∧ queue (state w')
    = queue (state w)
      ++ seq (length (heap w)) (length (filter accepted fileList))
  ∧ (∀ candidate, candidate ∈ fileList → ¬ accepted candidate →
       tooLargeToast candidate.1 ∈ effects)
  ∧ Forall (λ e, is_network e = false) effects.
Proof.
  cbn zeta. rewrite addFilesToQueue_run. cbn [fst snd].
  split_and!; try done.
  - cbn. by rewrite length_fmap.
  - intros candidate Hin Hrej. unfold addFiles_effects.
    destruct fileList as [|c rest] eqn:Hlist; [by apply elem_of_nil in Hin|].
    rewrite <- Hlist in *. apply elem_of_app. left.
    apply list_elem_of_fmap. exists candidate. split; [done|].
    by apply list_elem_of_filter.
  - apply addFiles_effects_local.
Qed.

(** ** Starting the upload *)

Lemma is_pending_true h r :
  is_pending h r = true ↔
  ∃ it, h !! r = Some it ∧ QueueItem.status it = pending.
Proof.
  unfold is_pending. rewrite bool_decide_eq_true. split.
  - intros H. destruct (h !! r) as [it|]; cbn in H; [|discriminate].
    exists it. split; [done|congruence].
  - intros (it & -> & Hst). cbn. by rewrite Hst.
Qed.

Lemma uploadQueueItem_run item w :
  uploadQueueItem item w = (Normal tt, start_item item w, start_effects item).
Proof.
  unfold uploadQueueItem. munfold. mstep. cbn [heap set_heap].
  rewrite !list_alter_alter_eq. reflexivity.
Qed.

Lemma is_pending_start_item w item r :
  is_pending (heap (start_item item w)) r = true ↔
  r ≠ item ∧ is_pending (heap w) r = true.
Proof.
  rewrite !is_pending_true. cbn [start_item heap set_heap set_xhrs].
  destruct (decide (r = item)) as [->|Hne].
  - rewrite list_lookup_alter_eq. split; [|by intros [? _]].
    intros (it & Hit & Hst).
    apply fmap_Some in Hit as (it0 & _ & ->). discriminate Hst.
  - rewrite list_lookup_alter_ne by done. split; [by intros ?|by intros [_ ?]].
Qed.

(** The loop of the start-upload listener: it starts the entries that are
    [pending] when the listener is entered, each once. *)
Lemma uploadPending_run (entries : list ref) :
  ∀ w, ∃ added w',
    uploadPending entries w = (Normal tt, w', added ≫= start_effects)
    ∧ state w' = state w
    ∧ timers w' = timers w
    ∧ refreshes w' = refreshes w
    ∧ xhrs w' = xhrs w ++ added
    ∧ NoDup added
    ∧ (∀ r, r ∈ added ↔ r ∈ entries ∧ is_pending (heap w) r = true)
    ∧ (∀ r, heap w' !! r
            = if decide (r ∈ added) then started <$> heap w !! r
              else heap w !! r).
Proof.
  induction entries as [|item rest IH]; intros w.
  - exists [], w. cbn. split_and!; try done.
    + by rewrite app_nil_r.
    + constructor.
    + intros r. split; [by intros ?%elem_of_nil|]. by intros [?%elem_of_nil _].
  - cbn [uploadPending]. mstep.
    destruct (is_pending (heap w) item) eqn:Hp.
    + rewrite bind_unfold, uploadQueueItem_run.
      destruct (IH (start_item item w))
        as (added & w' & -> & Hst & Hti & Hre & Hx & Hnd & Hin & Hheap).
      assert (Hnotin : item ∉ added).
      { intros [_ [? _]%is_pending_start_item]%Hin. done. }
      exists (item :: added), w'. split_and!; try done.
      * rewrite Hx. cbn. by rewrite <- app_assoc.
      * by constructor.
      * intros r. rewrite elem_of_cons, Hin, is_pending_start_item.
        rewrite elem_of_cons.
        destruct (decide (r = item)) as [->|Hne]; [by intuition|].
        intuition congruence.
      * intros r. rewrite Hheap. cbn [start_item heap set_heap set_xhrs].
        destruct (decide (r = item)) as [->|Hne].
        -- rewrite decide_False by done. rewrite decide_True by left.
           apply list_lookup_alter_eq.
        -- rewrite list_lookup_alter_ne by done.
           destruct (decide (r ∈ added)).
           ++ rewrite decide_True by (by right). done.
           ++ rewrite decide_False; [done|]. by intros [?|?]%elem_of_cons.
    + mstep.
      destruct (IH w)
        as (added & w' & -> & Hst & Hti & Hre & Hx & Hnd & Hin & Hheap).
      exists added, w'. split_and!; try done.
      intros r. rewrite Hin, elem_of_cons. split; [tauto|].
      intros [[->|?] Hr]; [congruence|done].
Qed.

Lemma hasPending_existsb w :
  existsb (is_pending (heap w)) (queue (state w)) = true ↔ hasPending w.
Proof.
  rewrite existsb_exists. unfold hasPending. split.
  - intros (r & Hin%list_elem_of_In & (it & ? & ?)%is_pending_true). eauto.
  - intros (r & it & Hin & Hit & Hst). exists r. split.
    + by apply list_elem_of_In.
    + apply is_pending_true. eauto.
Qed.

Lemma start_effects_send (added : list ref) (r : ref) :
  XhrSend "POST" "/api/upload" r ∈ added ≫= start_effects ↔ r ∈ added.
Proof.
  rewrite list_elem_of_bind. unfold start_effects. split.
  - intros (r' & Hin & Hr'). 
    apply elem_of_cons in Hin as [?|Hin]; [done|].
    apply elem_of_cons in Hin as [?|Hin]; [by simplify_eq|].
    by apply elem_of_nil in Hin.
  - intros Hin. exists r. split; [|done]. right. left.
Qed.

(** C9. The start-upload listener.  Without a [pending] entry in the queue
    it shows one informational notification and changes nothing, so it
    sends nothing.  With one, every item that is in the queue and [pending]
    at that moment becomes [uploading] (progress 0, the upload message) and
    gets a request of its own; every other item is left exactly as it was
    and gets no request. *)
Theorem startUpload_starts_pending (w : World) :
  let w' := fst (run onStartUploadClick w) in
  let effects := snd (run onStartUploadClick w) in
  (¬ hasPending w →
     w' = w
     ∧ effects = [ShowToast "Keine Dateien in der Warteschlange." Toast.info])
  ∧ (hasPending w →
       state w' = state w
       ∧ ∀ r it, heap w !! r = Some it →
           if decide (r ∈ queue (state w) ∧ QueueItem.status it = pending)
           then heap w' !! r = Some (started it)
                ∧ QueueItem.status (started it) = uploading
                ∧ XhrSend "POST" "/api/upload" r ∈ effects
                ∧ r ∈ xhrs w'
           else heap w' !! r = Some it
                ∧ (XhrSend "POST" "/api/upload" r ∉ effects)).
Proof.
  cbn zeta. unfold run, onStartUploadClick. mstep.
  destruct (existsb (is_pending (heap w)) (queue (state w))) eqn:Hex.
  - apply hasPending_existsb in Hex as Hhas. cbn [negb]. split; [done|].
    intros _.
    destruct (uploadPending_run (queue (state w)) w)
      as (added & w' & -> & Hst & _ & _ & Hx & _ & Hin & Hheap).
    cbn [fst snd]. split; [done|]. intros r it Hit.
    rewrite Hheap, Hit. cbn [fmap option_fmap option_map].
    assert (Hiff : r ∈ added ↔
                   r ∈ queue (state w) ∧ QueueItem.status it = pending).
    { rewrite Hin, is_pending_true. split.
      - intros [? (it0 & ? & ?)]. split; [done|congruence].
      - intros [? ?]. eauto. }
    destruct (decide (r ∈ queue (state w) ∧ QueueItem.status it = pending))
      as [Hyes|Hno].
    + rewrite decide_True by (by apply Hiff). split_and!; [done|done| |].
      * by apply start_effects_send, Hiff.
      * rewrite Hx. apply elem_of_app. right. by apply Hiff.
    + rewrite decide_False by (by rewrite Hiff). split; [done|].
      by rewrite start_effects_send, Hiff.
  - cbn [negb]. split; [done|]. intros Hhas%hasPending_existsb. congruence.
Qed.

Lemma startUpload_starts_pending_witness :
  heap (fst (run onStartUploadClick queuedWorld)) !! 0
  = Some (started (newItem (File.mk "a.txt" 10485760, "1730000000000-9f3a")))
  ∧ XhrSend "POST" "/api/upload" 0 ∈ snd (run onStartUploadClick queuedWorld).
Proof.
  assert (Hhas : hasPending queuedWorld).
  { exists 0, (newItem (File.mk "a.txt" 10485760, "1730000000000-9f3a")).
    split_and!; [left|reflexivity|reflexivity]. }
  destruct (proj2 (startUpload_starts_pending queuedWorld) Hhas) as [_ Hall].
  specialize (Hall 0 (newItem (File.mk "a.txt" 10485760, "1730000000000-9f3a"))
                   eq_refl).
  rewrite decide_True in Hall by (split; [left|reflexivity]).
  destruct Hall as (Hheap & _ & Hsend & _). by split.
Defined.

(** ** The status path *)

(** Run a handler through all the cases of its optional values. *)
Ltac mcase :=
  repeat (mrun;
          try match goal with
              | |- context [match ?x with Some _ => _ | None => _ end] =>
                  destruct x
              end;
          cbn beta iota).

Lemma change_same w w' :
  heap w' = heap w → xhrs w' = xhrs w → queue_change w w'.
Proof.
  intros Hh Hx. apply (change_alloc w w' []); [|done]. by rewrite app_nil_r.
Qed.

Lemma onLoad_change item status responseText w :
  ∃ f, (∀ it, QueueItem.status (f it) = QueueItem.status it
              ∨ QueueItem.status (f it) = success
              ∨ QueueItem.status (f it) = error)
       ∧ heap (fst (run (onLoad item status responseText) w))
         = alter f item (heap w)
       ∧ xhrs (fst (run (onLoad item status responseText) w)) = xhrs w.
Proof.
  unfold run, onLoad.
  destruct (status =? 401)%Z.
  { exists id. cbn. split_and!; [by left| by rewrite list_alter_id |done]. }
  unfold try_catch, uploadFailed. munfold.
  destruct responseText as [msg|typeError|data]; destruct (ok status); mcase.
  all: cbn [fst heap xhrs set_heap set_state set_xhrs set_timers set_refreshes].
  all: rewrite ?list_alter_alter_eq.
  all: eexists; (split; [|split; reflexivity]); intros it; cbn; auto.
Qed.

Lemma onError_change item w :
  ∃ f, (∀ it, QueueItem.status (f it) = error)
       ∧ heap (fst (run (onError item) w)) = alter f item (heap w)
       ∧ xhrs (fst (run (onError item) w)) = xhrs w.
Proof.
  unfold run, onError. munfold. mcase.
  all: cbn [fst heap xhrs set_heap set_state set_xhrs].
  all: rewrite ?list_alter_alter_eq.
  all: eexists; (split; [|split; reflexivity]); intros it; reflexivity.
Qed.

Lemma onProgress_change item lengthComputable loaded total w :
  ∃ f, (∀ it, QueueItem.status (f it) = QueueItem.status it)
       ∧ heap (fst (run (onProgress item lengthComputable loaded total) w))
         = alter f item (heap w)
       ∧ xhrs (fst (run (onProgress item lengthComputable loaded total) w))
         = xhrs w.
Proof.
  unfold run, onProgress. destruct lengthComputable.
  - munfold. mstep. eexists. split; [|split; reflexivity]. done.
  - exists id. cbn. by rewrite list_alter_id.
Qed.

Lemma onRemoveClick_frame item w :
  heap (fst (run (onRemoveClick item) w)) = heap w
  ∧ xhrs (fst (run (onRemoveClick item) w)) = xhrs w.
Proof.
  unfold run, onRemoveClick. munfold. mstep.
  destruct (heap w !! item) as [it|]; [|done].
  destruct (bool_decide _); mstep; done.
Qed.

Lemma onRemovalTimeout_frame item w :
  heap (fst (run (onRemovalTimeout item) w)) = heap w
  ∧ xhrs (fst (run (onRemovalTimeout item) w)) = xhrs w.
Proof.
  unfold run, onRemovalTimeout. munfold. mstep.
  destruct (heap w !! item) as [it|]; [|done]. mstep.
  destruct (list_find _ _) as [[index entry]|]; [|done].
  destruct (bool_decide _); mstep; done.
Qed.

Lemma refreshFiles_resume_frame rev showToastOnSuccess server w :
  let w' := fst (run (refreshFiles_resume rev showToastOnSuccess server) w) in
  heap w' = heap w ∧ xhrs w' = xhrs w.
Proof.
  cbn zeta.
  destruct rev; unfold run, refreshFiles_resume, Table.refreshFiles_resume,
    Cards.refreshFiles_resume, try_catch, handleUnauthorizedResponse;
    munfold;
    (destruct server as [reason|status body]; [done|]);
    mrun;
    (destruct (status =? 401)%Z; mrun; [done|]);
    (destruct (ok status); mrun; [|done]);
    (destruct body as [msg|typeError|data]; mrun; [done|done|]);
    mcase; destruct showToastOnSuccess; mrun; done.
Qed.

Lemma onStartUploadClick_change w :
  queue_change w (fst (run onStartUploadClick w)).
Proof.
  unfold run, onStartUploadClick. mstep.
  destruct (existsb _ _); cbn [negb].
  - destruct (uploadPending_run (queue (state w)) w)
      as (added & w' & -> & _ & _ & _ & Hx & Hnd & Hin & Hheap).
    apply (change_start w w' added); try done.
    intros r Hr. by apply Hin.
  - by apply change_same.
Qed.

(** Every event changes the queue items in one of the four ways. *)
Lemma step_queue_change rev w e :
  enabled w e → queue_change w (step rev w e).
Proof.
  intros Hen. unfold step. destruct e; cbn [handle].
  - rewrite addFilesToQueue_run. by eapply change_alloc.
  - apply onStartUploadClick_change.
  - apply change_same; apply onRemoveClick_frame.
  - destruct (onProgress_change item lengthComputable loaded total w)
      as (f & Hf & Hheap & Hxhrs).
    by eapply change_keep.
  - unfold run. rewrite bind_modify_world.
    destruct (onLoad_change item status responseText
                (set_xhrs (remove_first item (xhrs w)) w))
      as (f & Hf & Hheap & Hxhrs).
    by eapply change_done.
  - unfold run. rewrite bind_modify_world.
    destruct (onError_change item (set_xhrs (remove_first item (xhrs w)) w))
      as (f & Hf & Hheap & Hxhrs).
    eapply change_done; eauto.
  - unfold run. rewrite bind_modify_world.
    apply change_same;
      apply (onRemovalTimeout_frame item
               (set_timers (remove_first item (timers w)) w)).
  - by apply change_same.
  - unfold run. rewrite bind_modify_world.
    apply change_same;
      apply (refreshFiles_resume_frame rev showToastOnSuccess server
               (set_refreshes
                  (remove_first showToastOnSuccess (refreshes w)) w)).
Qed.

Lemma elem_of_remove_first (x y : nat) (l : list nat) :
  NoDup l → y ∈ remove_first x l ↔ y ∈ l ∧ y ≠ x.
Proof.
  induction l as [|z l IH]; intros Hnd; cbn.
  - split; [by intros ?%elem_of_nil|by intros [?%elem_of_nil _]].
  - apply NoDup_cons in Hnd as [Hz Hnd]. destruct (decide (x = z)) as [->|Hne].
    + rewrite elem_of_cons. split.
      * intros Hy. split; [by right|]. by intros ->.
      * by intros [[->|?] ?].
    + rewrite !elem_of_cons, IH by done. split.
      * intros [->|[? ?]]; [split; [by left|done]|split; [by right|done]].
      * intros [[->|?] ?]; [by left|by right].
Qed.

Lemma NoDup_remove_first (x : nat) (l : list nat) :
  NoDup l → NoDup (remove_first x l).
Proof.
  induction l as [|z l IH]; intros Hnd; cbn; [done|].
  apply NoDup_cons in Hnd as [Hz Hnd]. destruct (decide (x = z)); [done|].
  apply NoDup_cons. split; [|by apply IH].
  rewrite elem_of_remove_first by done. by intros [? _].
Qed.

(** The four ways keep the invariant. *)
Lemma queue_change_invariant w w' :
  in_flight_uploading w → queue_change w w' → in_flight_uploading w'.
Proof.
  intros [Hnd Hup] [new Hh Hx|added Hx Hadd Hpend Hh|item f Hh Hx Hf
                    |item f Hin Hh Hx Hf].
  - split; [by rewrite Hx|]. intros r Hr. rewrite Hx in Hr.
    destruct (Hup r Hr) as (it & Hit & Hst). exists it. split; [|done].
    rewrite Hh. by apply lookup_app_l_Some.
  - split.
    + rewrite Hx. apply NoDup_app. split_and!; [done| |done].
      intros r Hr Hr'. destruct (Hup r Hr) as (it & Hit & Hst).
      apply Hpend, is_pending_true in Hr' as (it' & Hit' & Hst'). congruence.
    + intros r Hr. rewrite Hh. destruct (decide (r ∈ added)) as [Hr'|Hr'].
      * apply Hpend, is_pending_true in Hr' as (it & -> & Hst).
        by exists (started it).
      * rewrite Hx in Hr. apply elem_of_app in Hr as [Hr|Hr]; [|done].
        by apply Hup.
  - split; [by rewrite Hx|]. intros r Hr. rewrite Hx in Hr.
    destruct (Hup r Hr) as (it & Hit & Hst). rewrite Hh.
    destruct (decide (item = r)) as [->|Hne].
    + exists (f it). rewrite list_lookup_alter_eq, Hit. split; [done|].
      by rewrite Hf.
    + exists it. by rewrite list_lookup_alter_ne.
  - split; [rewrite Hx; by apply NoDup_remove_first|]. intros r Hr.
    rewrite Hx in Hr. apply elem_of_remove_first in Hr as [Hr Hne]; [|done].
    destruct (Hup r Hr) as (it & Hit & Hst). exists it.
    rewrite Hh. by rewrite list_lookup_alter_ne.
Qed.

(** Under the invariant, each of the four ways moves every status along
    the allowed path. *)
Lemma queue_change_allowed w w' r it :
  in_flight_uploading w → queue_change w w' →
  heap w !! r = Some it →
  ∃ it', heap w' !! r = Some it'
         ∧ allowed (QueueItem.status it) (QueueItem.status it').
Proof.
  intros [Hnd Hup] [new Hh Hx|added Hx Hadd Hpend Hh|item f Hh Hx Hf
                    |item f Hin Hh Hx Hf] Hit.
  - exists it. split; [|by left]. rewrite Hh. by apply lookup_app_l_Some.
  - rewrite Hh, Hit. destruct (decide (r ∈ added)) as [Hr|Hr].
    + exists (started it). split; [done|]. right. left. split; [|done].
      apply Hpend, is_pending_true in Hr as (it' & Hit' & Hst'). congruence.
    + exists it. split; [done|by left].
  - rewrite Hh. destruct (decide (item = r)) as [->|Hne].
    + exists (f it). rewrite list_lookup_alter_eq, Hit. split; [done|].
      left. apply Hf.
    + exists it. rewrite list_lookup_alter_ne by done. split; [done|by left].
  - rewrite Hh. destruct (decide (item = r)) as [->|Hne].
    + exists (f it). rewrite list_lookup_alter_eq, Hit. split; [done|].
      destruct (Hup r Hin) as (it' & Hit' & Hst').
      assert (it' = it) as -> by congruence.
      destruct (Hf it) as [Hs|[Hs|Hs]]; rewrite Hs.
      * by left.
      * right. right. split; [done|by left].
      * right. right. split; [done|by right].
    + exists it. rewrite list_lookup_alter_ne by done. split; [done|by left].
Qed.

Lemma reachable_in_flight_uploading rev w :
  reachable rev w → in_flight_uploading w.
Proof.
  induction 1 as [initialFiles initialTotalSize initialCapacity prefs
                 |w e Hreach IH Hen].
  - split; [constructor|]. intros r Hr. by apply elem_of_nil in Hr.
  - eapply queue_change_invariant; [done|]. by apply step_queue_change.
Qed.

Lemma status_step rev w e r it :
  reachable rev w → enabled w e → heap w !! r = Some it →
  ∃ it', heap (step rev w e) !! r = Some it'
         ∧ allowed (QueueItem.status it) (QueueItem.status it').
Proof.
  intros Hreach Hen Hit.
  apply (queue_change_allowed w (step rev w e) r it);
    [|by apply step_queue_change|done].
  by eapply reachable_in_flight_uploading.
Qed.

Lemma allowed_not_pending s s' : allowed s s' → s ≠ pending → s' ≠ pending.
Proof.
  intros [Hs|[[Hs Hs']|[Hs [Hs'|Hs']]]] Hne; congruence.
Qed.

Lemma status_steps rev events :
  ∀ w r it,
    reachable rev w → enabled_all rev w events →
    heap w !! r = Some it → QueueItem.status it ≠ pending →
    ∃ it', heap (steps rev w events) !! r = Some it'
           ∧ QueueItem.status it' ≠ pending.
Proof.
  induction events as [|e rest IH]; intros w r it Hreach Hen Hit Hne.
  - exists it. done.
  - destruct Hen as [He Hrest].
    destruct (status_step rev w e r it Hreach He Hit) as (it1 & Hit1 & Hal).
    apply (IH (step rev w e) r it1); [|done|done|].
    + by apply reachable_step.
    + by eapply allowed_not_pending.
Qed.

(** C3. In every world the page can reach, whatever event comes next (files
    added, start-upload, a remove click, progress, completion or failure of
    a request, a removal timer, a refresh), every queue item that exists
    keeps existing and its status either stays or moves along
    pending → uploading → success/error.  And over any sequence of such
    events an item that is [uploading], [success] or [error] never becomes
    [pending] again. *)
Theorem status_path (rev : Revision) (w : World) :
  reachable rev w →
  (∀ e r it,
     enabled w e → heap w !! r = Some it →
     ∃ it', heap (step rev w e) !! r = Some it'
            ∧ allowed (QueueItem.status it) (QueueItem.status it'))
  ∧ (∀ events r it,
       enabled_all rev w events → heap w !! r = Some it →
       QueueItem.status it ≠ pending →
       ∃ it', heap (steps rev w events) !! r = Some it'
              ∧ QueueItem.status it' ≠ pending).
Proof.
  intros Hreach. split.
  - intros e r it. by apply status_step.
  - intros events r it. by apply status_steps.
Qed.

(** A queue with one file: start the upload, let it finish with a file
    descriptor, let the removal timer fire. *)
Lemma status_path_witness :
  (∃ it', heap (step TableView queuedWorld StartUploadClick) !! 0 = Some it'
          ∧ allowed pending (QueueItem.status it'))
  ∧ (∃ it', heap (steps TableView
                    (step TableView queuedWorld StartUploadClick)
                    [XhrProgress 0 true 5242880 10485760;
                     XhrLoad 0 200
                       (JsonObject (Upload.mk (Some demoFile) None));
                     RemovalTimeout 0;
                     StartUploadClick]) !! 0 = Some it'
            ∧ QueueItem.status it' ≠ pending).
Proof.
  assert (Hq : reachable TableView queuedWorld)
    by (apply reachable_step; [apply reachable_init|exact I]).
  split.
  - apply (proj1 (status_path TableView queuedWorld Hq) StartUploadClick 0
             (newItem (File.mk "a.txt" 10485760, "1730000000000-9f3a")));
      [exact I|reflexivity].
  - apply (proj2 (status_path TableView _
                    (reachable_step TableView queuedWorld StartUploadClick
                                    Hq I))
                 _ 0
                 (started
                    (newItem
                       (File.mk "a.txt" 10485760, "1730000000000-9f3a")))).
    + cbn. repeat split; left.
    + reflexivity.
    + discriminate.
Defined.

(** ** Formatting byte counts *)

Lemma pow2_le_upper (n d a b : Z) :
  (0 <= a → 0 <= b → n < 2 ^ (a + 1) → 2 ^ b <= d →
   pow2_le (a - b + 1) n d = false)%Z.
Proof.
  intros Ha Hb Hn Hd. unfold pow2_le.
  destruct (Z.leb_spec 0 (a - b + 1)) as [He|He]; apply Z.leb_gt.
  - assert (Hsplit : (2 ^ (a + 1) = 2 ^ b * 2 ^ (a - b + 1))%Z).
    { rewrite <- Z.pow_add_r by lia. f_equal. lia. }
    assert (0 < 2 ^ (a - b + 1))%Z by (apply Z.pow_pos_nonneg; lia).
    nia.
  - assert (Hsplit : (2 ^ b = 2 ^ (a + 1) * 2 ^ (- (a - b + 1)))%Z).
    { rewrite <- Z.pow_add_r by lia. f_equal. lia. }
    assert (0 < 2 ^ (- (a - b + 1)))%Z by (apply Z.pow_pos_nonneg; lia).
    nia.
Qed.

Lemma pow2_le_lower (n d a b : Z) :
  (0 <= a → 0 <= b → 2 ^ a <= n → d < 2 ^ (b + 1) →
   pow2_le (a - b - 1) n d = true)%Z.
Proof.
  intros Ha Hb Hn Hd. unfold pow2_le.
  destruct (Z.leb_spec 0 (a - b - 1)) as [He|He]; apply Z.leb_le.
  - assert (Hsplit : (2 ^ a = 2 ^ (b + 1) * 2 ^ (a - b - 1))%Z).
    { rewrite <- Z.pow_add_r by lia. f_equal. lia. }
    assert (0 < 2 ^ (a - b - 1))%Z by (apply Z.pow_pos_nonneg; lia).
    nia.
  - assert (Hsplit : (2 ^ (b + 1) = 2 ^ a * 2 ^ (- (a - b - 1)))%Z).
    { rewrite <- Z.pow_add_r by lia. f_equal. lia. }
    assert (0 < 2 ^ (- (a - b - 1)))%Z by (apply Z.pow_pos_nonneg; lia).
    nia.
Qed.

(** [floor_log2] is the floor of the binary logarithm:
    [2^e <= q < 2^(e+1)] for [e = floor_log2 q]. *)
Lemma floor_log2_spec (q : Q) :
  (0 < q)%Q →
  pow2_le (floor_log2 q) (Qnum q) (Z.pos (Qden q)) = true
  ∧ pow2_le (floor_log2 q + 1) (Qnum q) (Z.pos (Qden q)) = false.
Proof.
  destruct q as [n d]. unfold Qlt, floor_log2. cbn [Qnum Qden]. intros Hq.
  assert (Hn : (0 < n)%Z) by lia.
  destruct (Z.log2_spec n Hn) as [Hn1 Hn2].
  destruct (Z.log2_spec (Z.pos d) eq_refl) as [Hd1 Hd2].
  pose proof (Z.log2_nonneg n) as Ha.
  pose proof (Z.log2_nonneg (Z.pos d)) as Hb.
  rewrite <- Z.add_1_r in Hn2, Hd2.
  pose proof (pow2_le_upper n (Z.pos d) _ _ Ha Hb Hn2 Hd1) as Hup.
  pose proof (pow2_le_lower n (Z.pos d) _ _ Ha Hb Hn1 Hd2) as Hlo.
  destruct (pow2_le (Z.log2 n - Z.log2 (Z.pos d)) n (Z.pos d)) eqn:He.
  - done.
  - split; [done|]. by rewrite Z.sub_add.
Qed.

Lemma floor_log2_nonneg (q : Q) : (1 <= q)%Q → (0 <= floor_log2 q)%Z.
Proof.
  destruct q as [n d]. unfold Qle, floor_log2, pow2_le. cbn [Qnum Qden].
  intros Hq.
  assert (Hlog : (Z.log2 (Z.pos d) <= Z.log2 n)%Z)
    by (apply Z.log2_le_mono; lia).
  destruct (Z.eq_dec (Z.log2 n - Z.log2 (Z.pos d))%Z 0%Z) as [->|Hne].
  - cbn [Z.leb Z.compare Z.pow Z.pow_pos Z.opp]. rewrite Z.pow_0_r, Z.mul_1_r.
    destruct (Z.leb_spec (Z.pos d) n); lia.
  - destruct (0 <=? _)%Z; destruct (_ <=? _)%Z; lia.
Qed.

Lemma floor_log2_negative (q : Q) :
  (0 < q)%Q → (q < 1)%Q → (floor_log2 q < 0)%Z.
Proof.
  destruct q as [n d]. unfold Qlt, floor_log2, pow2_le. cbn [Qnum Qden].
  intros Hpos Hq.
  assert (Hlog : (Z.log2 n <= Z.log2 (Z.pos d))%Z)
    by (apply Z.log2_le_mono; lia).
  destruct (Z.eq_dec (Z.log2 n - Z.log2 (Z.pos d))%Z 0%Z) as [->|Hne].
  - cbn [Z.leb Z.compare Z.pow Z.pow_pos Z.opp]. rewrite Z.pow_0_r, Z.mul_1_r.
    destruct (Z.leb_spec (Z.pos d) n); lia.
  - destruct (0 <=? _)%Z; destruct (_ <=? _)%Z; lia.
Qed.

Lemma exponent_of_in_range (q : Q) :
  (1 <= q)%Q → (0 <= exponent_of q <= 4)%Z.
Proof.
  intros Hq. apply floor_log2_nonneg in Hq.
  unfold exponent_of, floor_log1024. cbn [units length].
  assert (0 <= floor_log2 q / 10)%Z by (apply Z.div_pos; lia). lia.
Qed.

Lemma exponent_of_negative (q : Q) :
  (0 < q)%Q → (q < 1)%Q → (exponent_of q < 0)%Z.
Proof.
  intros Hpos Hq. pose proof (floor_log2_negative q Hpos Hq).
  unfold exponent_of, floor_log1024.
  assert (floor_log2 q / 10 < 0)%Z by (apply Z.div_lt_upper_bound; lia). lia.
Qed.

Lemma formatBytes_positive (q : Q) :
  (0 < q)%Q →
  formatBytes (Finite q)
  = toFixed (q / Qpower 1024 (exponent_of q))
            (if Qle_bool 10 (q / Qpower 1024 (exponent_of q))
                || (exponent_of q =? 0)%Z then 0 else 1)
    +:+ " " +:+ unit_text (exponent_of q).
Proof.
  intros Hq. unfold formatBytes.
  destruct (Qle_bool q 0) eqn:Hle; [|reflexivity].
  apply Qle_bool_iff in Hle. by apply Qlt_not_le in Hq.
Qed.

(** On everything that is not a positive finite number the result is
    ["0 B"]. *)
Lemma formatBytes_zero (bytes : JsNum) :
  match bytes with
  | Finite q => (q <= 0)%Q
  | _ => True
  end →
  formatBytes bytes = "0 B".
Proof.
  destruct bytes as [| |q]; [done..|]. intros Hq%Qle_bool_iff.
  unfold formatBytes. by rewrite Hq.
Qed.

(** From one byte upward the unit is one of the table. *)
Lemma formatBytes_unit_in_table (q : Q) :
  (1 <= q)%Q →
  ∃ text unit,
    formatBytes (Finite q) = text +:+ " " +:+ unit ∧ unit ∈ units.
Proof.
  intros Hq. rewrite formatBytes_positive
    by (eapply Qlt_le_trans; [|exact Hq]; reflexivity).
  eexists _, (unit_text (exponent_of q)). split; [reflexivity|].
  pose proof (exponent_of_in_range q Hq) as Hrange.
  assert (Hcases : exponent_of q = 0%Z ∨ exponent_of q = 1%Z
                   ∨ exponent_of q = 2%Z ∨ exponent_of q = 3%Z
                   ∨ exponent_of q = 4%Z) by lia.
  destruct Hcases as [->|[->|[->|[->| ->]]]]; cbn;
    repeat first [by left | right].
Qed.

(** Below one byte the exponent is negative and the table has no entry
    for it: the unit reads [undefined]. *)
Lemma formatBytes_below_one (q : Q) :
  (0 < q)%Q → (q < 1)%Q →
  ∃ text, formatBytes (Finite q) = text +:+ " undefined".
Proof.
  intros Hpos Hq. rewrite formatBytes_positive by done.
  pose proof (exponent_of_negative q Hpos Hq) as Hneg.
  eexists. unfold unit_text.
  by rewrite (proj2 (Z.ltb_lt (exponent_of q) 0) Hneg).
Qed.

(** C10 (the input one half). [formatBytes(0.5)]: the exponent is
    [Math.min(-1, 4) = -1], the value [0.5 / 1024^-1 = 512], and
    [units[-1]] is [undefined]: the result is not suffixed with a unit of
    the table.  The exponent is clamped from above only. *)
Theorem formatBytes_half_has_no_unit :
  exponent_of (1 # 2) = (-1)%Z
  ∧ formatBytes (Finite (1 # 2)) = "512 undefined"
  ∧ formatBytes (Finite 1) = "1 B"
  ∧ formatBytes (Finite 0) = "0 B"
  ∧ formatBytes NaN = "0 B"
  ∧ formatBytes (Finite (1024 * 1024 * 1024 * 1024 * 1024 * 5)) = "5120 TB".
Proof. repeat split; vm_compute; reflexivity. Qed.

(** * Further properties *)

(** ** Completed uploads *)

Lemma alter_lookup_Some {A} (f : A → A) (l : list A) i x :
  l !! i = Some x → alter f i l !! i = Some (f x).
Proof. intros H. by rewrite list_lookup_alter_eq, H. Qed.

(** X1. A 2xx upload answer that carries a file descriptor: the item
    becomes [success] at progress 100, the descriptor is merged into the
    registry and the total is recomputed over the new registry (the exact
    sum as long as the sizes stay within the safe integers), the removal
    timer is armed, and nothing is requested from the server. *)
Theorem upload_success_merges (item : ref) (it : QueueItem.t) (status : Z)
    (f : FileRecord.t) (msg : option string) (w : World) :
  heap w !! item = Some it →
  ok status = true →
  let result :=
    run (onLoad item status (JsonObject (Upload.mk (Some f) msg))) w in
  heap (fst result) = alter finished item (heap w)
  ∧ heap (fst result) !! item = Some (finished it)
  ∧ state (fst result) = insertOrUpdateFile_state f (state w)
  ∧ (safe_sizes (files (state (fst result))) →
     totalSize (state (fst result))
     = sum_of_sizes (files (state (fst result))))
  ∧ timers (fst result) = timers w ++ [item]
  ∧ refreshes (fst result) = refreshes w
  ∧ snd result = [UpdateQueueVisual item; uploadedToast it; UpdateStats;
                  RenderFiles; SetTimeout item 4000].
Proof.
  intros Hit Hok. cbn zeta. unfold run, onLoad, try_catch.
  rewrite (ok_not_401 _ Hok). mrun. rewrite Hok. munfold. mrun.
  cbn [heap set_heap]. rewrite !list_alter_alter_eq.
  rewrite (alter_lookup_Some _ _ _ _ Hit). mrun.
  cbn [fst snd heap state timers refreshes set_heap set_state set_timers].
  split_and!; try done.
  - by apply alter_lookup_Some.
  - apply reduceSize_sum.
Qed.

Lemma upload_success_merges_witness :
  heap (fst (run (onLoad 0 201
                    (JsonObject (Upload.mk (Some demoFile) None)))
                 uploadingWorld)) !! 0
  = Some (finished
            (started
               (newItem (File.mk "a.txt" 10485760, "1730000000000-9f3a")))).
Proof.
  apply (upload_success_merges 0
           (started (newItem (File.mk "a.txt" 10485760, "1730000000000-9f3a")))
           201 demoFile None uploadingWorld); reflexivity.
Defined.

(** X2. A 2xx upload answer without a file descriptor: the item becomes
    [success] all the same, the registry is left as it is, and one listing
    request goes out whose answer is still outstanding when the listener
    returns. *)
Theorem upload_success_without_descriptor (item : ref) (it : QueueItem.t)
    (status : Z) (msg : option string) (w : World) :
  heap w !! item = Some it →
  ok status = true →
  let result := run (onLoad item status (JsonObject (Upload.mk None msg))) w in
  heap (fst result) !! item = Some (finished it)
  ∧ state (fst result) = state w
  ∧ timers (fst result) = timers w ++ [item]
  ∧ refreshes (fst result) = refreshes w ++ [false]
  ∧ snd result = [UpdateQueueVisual item; uploadedToast it;
                  Fetch "GET" "/api/files"; SetTimeout item 4000].
Proof.
  intros Hit Hok. cbn zeta. unfold run, onLoad, try_catch.
  rewrite (ok_not_401 _ Hok). mrun. rewrite Hok. munfold. mrun.
  cbn [heap set_heap]. rewrite !list_alter_alter_eq.
  rewrite (alter_lookup_Some _ _ _ _ Hit). mrun.
  cbn [fst snd heap state timers refreshes set_heap set_state set_timers
       set_refreshes].
  split_and!; try done. by apply alter_lookup_Some.
Qed.

Lemma upload_success_without_descriptor_witness :
  refreshes (fst (run (onLoad 0 200 (JsonObject (Upload.mk None None)))
                      uploadingWorld))
  = refreshes uploadingWorld ++ [false].
Proof.
  apply (upload_success_without_descriptor 0
           (started (newItem (File.mk "a.txt" 10485760, "1730000000000-9f3a")))
           200 None uploadingWorld); reflexivity.
Defined.

(** X3. A failed upload, whether the server answered outside 2xx (and not
    401), the body could not be used, or the request itself failed: the
    item becomes [error] and keeps its progress, its message is the
    server's message when there is one and a fixed text otherwise, the same
    message is shown as an error notification, no removal timer is armed
    and the registry is untouched. *)
Theorem upload_failure_marks_error (item : ref) (it : QueueItem.t)
    (status : Z) (responseText : Json Upload.t) (w : World) :
  heap w !! item = Some it →
  status ≠ 401%Z →
  ok status = false
  ∨ (∀ data, responseText ≠ JsonObject data) →
  let msg := failureMessage responseText in
  run (onLoad item status responseText) w
  = (set_heap (alter (failed msg) item (heap w)) w,
     [UpdateQueueVisual item; ShowToast msg Toast.error])
  ∧ run (onError item) w
    = (set_heap (alter (failed "Netzwerkfehler beim Upload.") item (heap w)) w,
       [UpdateQueueVisual item;
        ShowToast "Netzwerkfehler beim Upload." Toast.error])
  ∧ QueueItem.progress (failed msg it) = QueueItem.progress it.
Proof.
  intros Hit H401 Hfail. cbn zeta. split_and!; [| |done].
  - unfold run, onLoad, try_catch, uploadFailed.
    rewrite (proj2 (Z.eqb_neq status 401) H401). munfold.
    destruct responseText as [m|typeError|data]; destruct (ok status) eqn:Hok;
      try (destruct Hfail as [?|Hfail]; [done|by destruct (Hfail data)]);
      mrun; cbn [heap set_heap]; rewrite ?list_alter_alter_eq;
      rewrite (alter_lookup_Some _ _ _ _ Hit); mrun;
      cbn [heap set_heap]; rewrite ?list_alter_alter_eq;
      try rewrite (alter_lookup_Some _ _ _ _ Hit); mrun;
      unfold set_heap; cbn [state heap xhrs timers refreshes app failureMessage];
      do 2 f_equal; (apply list_alter_ext; [by intros [] _|done]).
  - unfold run, onError. munfold. mrun.
    cbn [heap set_heap]. rewrite !list_alter_alter_eq.
    rewrite (alter_lookup_Some _ _ _ _ Hit). mrun.
    unfold set_heap. cbn [state heap xhrs timers refreshes app].
    do 2 f_equal.
Qed.

Lemma upload_failure_marks_error_witness :
  run (onLoad 0 413
         (JsonObject (Upload.mk None (Some "Speicher voll"))))
      uploadingWorld
  = (set_heap (alter (failed "Speicher voll") 0 (heap uploadingWorld))
              uploadingWorld,
     [UpdateQueueVisual 0; ShowToast "Speicher voll" Toast.error]).
Proof.
  apply (upload_failure_marks_error 0
           (started (newItem (File.mk "a.txt" 10485760, "1730000000000-9f3a")))
           413 (JsonObject (Upload.mk None (Some "Speicher voll")))
           uploadingWorld);
    [reflexivity | lia | left; reflexivity].
Defined.

(** ** Progress events *)

Lemma percentage_bounds (loaded total : Z) :
  (0 <= loaded <= total)%Z → (0 < total)%Z →
  ∃ q, percentage loaded total = Finite q ∧ (0 <= q)%Q ∧ (q <= 100)%Q.
Proof.
  intros [Hlo Hhi] Hpos. unfold percentage.
  rewrite (proj2 (Z.eqb_neq total 0)) by lia.
  eexists. split; [reflexivity|].
  assert (Hb : (0 < inject_Z total)%Q)
    by (rewrite (Zlt_Qlt 0 total) in Hpos; exact Hpos).
  assert (Hfrac0 : (0 <= inject_Z loaded / inject_Z total)%Q).
  { apply Qle_shift_div_l; [done|]. rewrite Qmult_0_l.
    by rewrite (Zle_Qle 0 loaded) in Hlo. }
  assert (Hfrac1 : (inject_Z loaded / inject_Z total <= 1)%Q).
  { apply Qle_shift_div_r; [done|]. rewrite Qmult_1_l.
    by rewrite (Zle_Qle loaded total) in Hhi. }
  rewrite !Qred_correct. split.
  - apply Qmult_le_0_compat; [done|discriminate].
  - apply Qle_trans with (1 * 100)%Q; [|discriminate].
    apply Qmult_le_compat_r; [done|discriminate].
Qed.

(** X4. A progress event with a known total, [0 <= loaded <= total] and
    [total > 0], sets the item's progress to a number between 0 and 100 and
    touches nothing else: status and message stay, no request is made.  An
    event without a known total changes nothing at all. *)
Theorem progress_within_bounds (item : ref) (loaded total : Z) (w : World) :
  (0 <= loaded <= total)%Z →
  (0 < total)%Z →
  ∃ q, (0 <= q)%Q ∧ (q <= 100)%Q
       ∧ run (onProgress item true loaded total) w
         = (set_heap (alter (QueueItem.set_progress (Finite q)) item (heap w))
                     w,
            [UpdateQueueVisual item])
       ∧ (∀ it, QueueItem.status (QueueItem.set_progress (Finite q) it)
                = QueueItem.status it
                ∧ QueueItem.message (QueueItem.set_progress (Finite q) it)
                  = QueueItem.message it)
       ∧ run (onProgress item false loaded total) w = (w, []).
Proof.
  intros Hrange Hpos.
  destruct (percentage_bounds loaded total Hrange Hpos) as (q & Hq & H0 & H100).
  exists q. split_and!; try done.
  unfold run, onProgress. munfold. mstep. by rewrite Hq.
Qed.

Lemma progress_within_bounds_witness :
  ∃ q, (0 <= q)%Q ∧ (q <= 100)%Q
       ∧ run (onProgress 0 true 5242880 10485760) uploadingWorld
         = (set_heap (alter (QueueItem.set_progress (Finite q)) 0
                            (heap uploadingWorld)) uploadingWorld,
            [UpdateQueueVisual 0]).
Proof.
  destruct (progress_within_bounds 0 5242880 10485760 uploadingWorld
              ltac:(lia) ltac:(lia)) as (q & H0 & H100 & Hrun & _).
  exists q. by split_and!.
Defined.

(** ** The removal timer *)

(** X5. When the timer armed by [scheduleQueueRemoval] fires, the queue
    loses at most one entry, and an entry it loses has status [success]
    and the identifier of the timer's item; items, registry and requests
    are untouched.  If the timer's item is in the queue, is [success] and
    is the only entry with its identifier, it is the entry that goes. *)
Theorem removal_timer_drops_success_only (item : ref) (it : QueueItem.t)
    (w : World) :
  heap w !! item = Some it →
  let w' := fst (run (onRemovalTimeout item) w) in
  heap w' = heap w
  ∧ files (state w') = files (state w)
  ∧ xhrs w' = xhrs w
  ∧ (queue (state w') = queue (state w)
     ∨ ∃ index entry dropped,
         queue (state w) !! index = Some entry
         ∧ heap w !! entry = Some dropped
         ∧ QueueItem.status dropped = success
         ∧ QueueItem.id dropped = QueueItem.id it
         ∧ queue (state w') = delete index (queue (state w)))
  ∧ (QueueItem.status it = success →
     item ∈ queue (state w) →
     NoDup (queue (state w)) →
     (∀ entry, entry ∈ queue (state w) →
               entry_id (heap w) entry = Some (QueueItem.id it) →
               entry = item) →
     item ∉ queue (state w')).
Proof.
  intros Hit. cbn zeta. unfold run, onRemovalTimeout. mstep. rewrite Hit.
  mstep.
  destruct (list_find _ _) as [[index entry]|] eqn:Hfind.
  - apply list_find_Some in Hfind as (Hentry & Hid & Hfirst).
    destruct (bool_decide_reflect
                (QueueItem.status <$> heap w !! entry = Some success))
      as [Hst|Hst]; munfold; mstep; cbn.
    + split_and!; try done.
      * right. unfold entry_id in Hid.
        destruct (heap w !! entry) as [dropped|] eqn:Hd; [|done].
        exists index, entry, dropped. cbn in Hid, Hst.
        split_and!; try done; congruence.
      * intros _ Hin Hnd Huniq.
        assert (entry = item) as ->.
        { apply Huniq; [|done]. by eapply list_elem_of_lookup_2. }
        intros Hin'. apply list_elem_of_lookup in Hin' as [j Hj].
        destruct (decide (j < index)) as [Hlt|Hge].
        -- rewrite list_lookup_delete_lt in Hj by done.
           pose proof (NoDup_lookup _ _ _ _ Hnd Hj Hentry). lia.
        -- rewrite list_lookup_delete_ge in Hj by lia.
           pose proof (NoDup_lookup _ _ _ _ Hnd Hj Hentry). lia.
    + split_and!; try done; [by left|].
      intros Hsucc Hin Hnd Huniq.
      assert (entry = item) as ->.
      { apply Huniq; [|done]. by eapply list_elem_of_lookup_2. }
      rewrite Hit in Hst. cbn in Hst. by rewrite Hsucc in Hst.
  - mstep. cbn. split_and!; try done; [by left|].
    intros _ Hin _ _. apply list_find_None in Hfind.
    rewrite Forall_forall in Hfind. destruct (Hfind item Hin).
    unfold entry_id. by rewrite Hit.
Qed.

Lemma removal_timer_drops_success_only_witness :
  let w := fst (run (onLoad 0 200
                       (JsonObject (Upload.mk (Some demoFile) None)))
                    uploadingWorld) in
  heap (fst (run (onRemovalTimeout 0) w)) = heap w.
Proof.
  intros w.
  apply (removal_timer_drops_success_only 0
           (finished
              (started
                 (newItem (File.mk "a.txt" 10485760, "1730000000000-9f3a"))))
           w).
  reflexivity.
Defined.

(** ** Answers to a refresh *)

Lemma refreshFiles_resume_ok rev showToastOnSuccess status data w :
  ok status = true →
  run (refreshFiles_resume rev showToastOnSuccess
         (Response status (JsonObject data))) w
  = (set_state (refreshed rev data (state w)) w,
     [RenderFiles; UpdateStats]
     ++ if showToastOnSuccess
        then [ShowToast "Dateiliste aktualisiert." Toast.success] else []).
Proof.
  intros Hok.
  destruct rev; unfold run, refreshFiles_resume, Table.refreshFiles_resume,
    Cards.refreshFiles_resume, try_catch, handleUnauthorizedResponse;
    munfold; mrun; rewrite (ok_not_401 _ Hok); mrun; rewrite Hok; mrun.
  - destruct (Listing.preferences data) as [prefs|] eqn:Hprefs; mrun;
      destruct showToastOnSuccess; mrun;
      unfold refreshed; rewrite Hprefs; destruct w as [[] ? ? ? ?];
      reflexivity.
  - destruct showToastOnSuccess; mrun;
      unfold refreshed; destruct w as [[] ? ? ? ?]; reflexivity.
Qed.

Lemma refreshed_idempotent rev data s :
  refreshed rev data (refreshed rev data s) = refreshed rev data s.
Proof.
  unfold refreshed. cbn.
  destruct rev; [|done].
  destruct (Listing.preferences data) as [prefs|]; [|done].
  cbn. by destruct (truthy (copy_url_mode prefs)).
Qed.

(** X6. A 2xx listing replaces the registry, the total and the capacity
    wholesale by what the answer holds, a field the answer lacks becoming
    the empty list or 0; the upload queue, its items, requests and timers
    are left alone; the card grid never changes the preferences, and the
    table view keeps the copy mode when the answer brings none.  Settling
    the same answer a second time changes nothing. *)
Theorem refresh_success_replaces (rev : Revision) (showToastOnSuccess : bool)
    (status : Z) (data : Listing.t) (w : World) :
  ok status = true →
  let answer := Response status (JsonObject data) in
  let w' := fst (run (refreshFiles_resume rev showToastOnSuccess answer) w) in
  files (state w') = default [] (Listing.files data)
  ∧ totalSize (state w') = or_zero (Listing.total_size data)
  ∧ capacity (state w') = or_zero (Listing.capacity data)
  ∧ queue (state w') = queue (state w)
  ∧ (heap w' = heap w ∧ xhrs w' = xhrs w ∧ timers w' = timers w)
  ∧ (rev = CardGrid ∨ Listing.preferences data = None →
     preferences (state w') = preferences (state w))
  ∧ (∀ prefs, Listing.preferences data = Some prefs →
              truthy (copy_url_mode prefs) = false →
              copyUrlMode (preferences (state w'))
              = copyUrlMode (preferences (state w)))
  ∧ fst (run (refreshFiles_resume rev showToastOnSuccess answer) w') = w'.
Proof.
  intros Hok. cbn zeta. rewrite !refreshFiles_resume_ok by done.
  cbn [fst state set_state]. rewrite refreshed_idempotent.
  split_and!; try done.
  - intros [->|Hnone]; [done|]. unfold refreshed. rewrite Hnone.
    by destruct rev.
  - intros prefs Hprefs Hmode. unfold refreshed. rewrite Hprefs.
    destruct rev; [|done]. cbn. by rewrite Hmode.
Qed.

Lemma refresh_success_replaces_witness :
  files (state (fst (run (refreshFiles_resume TableView true
                            (Response 200
                               (JsonObject (Listing.mk None None None None))))
                         (shareWorld None))))
  = [].
Proof.
  apply (refresh_success_replaces TableView true 200
           (Listing.mk None None None None) (shareWorld None)).
  reflexivity.
Defined.

(** ** What every action does with 401, with a refusal, and without a file *)

Lemma or_text_idem (m : option string) (fallback : string) :
  fallback ≠ EmptyString →
  or_text (Some (or_text m fallback)) fallback = or_text m fallback.
Proof.
  intros Hne. unfold or_text at 1.
  destruct (String.eqb_spec (or_text m fallback) EmptyString) as [Heq|]; [|done].
  unfold or_text in Heq. destruct m as [x|]; [|done].
  by destruct (String.eqb_spec x EmptyString).
Qed.

(** X7. Every request answered with 401 sends the page to the login entry
    and changes nothing of the world.  No notification is shown, with one
    exception: [ensureShareLink] of the table view throws instead of
    returning, and its caller [copyLinkForFile] shows the thrown message
    as an error notification after the redirect. *)
Theorem unauthorized_redirects_everywhere (fileId : string) (i : nat)
    (file : FileRecord.t) (w : World) (rev : Revision) (showToast : bool)
    (listing : Json Listing.t) (listingAfter : FetchResult Listing.t)
    (body : Json ErrorBody) (share : Json Share.t) (needsRawLink : bool) :
  findFile fileId (files (state w)) = Some (i, file) →
  run (refreshFiles_resume rev showToast (Response 401 listing)) w
  = (w, [SetLocation "/login"])
  ∧ run (Table.deleteFile fileId true (Response 401 body)) w
    = (w, [Fetch "DELETE" ("/api/files/" +:+ fileId); SetLocation "/login"])
  ∧ run (Cards.onDeleteClick file true (Response 401 body) listingAfter) w
    = (w, [Fetch "DELETE" ("/api/files/" +:+ FileRecord.id file);
           SetLocation "/login"])
  ∧ run (Actions.hideFileFromPublic fileId (Response 401 body)) w
    = (w, [Fetch "DELETE" ("/api/files/" +:+ fileId +:+ "/share");
           SetLocation "/login"])
  ∧ (truthy (FileRecord.share_url file) = true →
     run (CardActions.onRevokeClick file true (Response 401 body)) w
     = (w, [Fetch "DELETE"
              ("/api/files/" +:+ FileRecord.id file +:+ "/share");
            SetLocation "/login"]))
  ∧ (truthy (FileRecord.share_url file) = false →
     run (Cards.ensureShareLink file (Response 401 share)) w
     = (w, [Fetch "POST" ("/api/files/" +:+ FileRecord.id file +:+ "/share");
            SetLocation "/login"]))
  ∧ (Table.hasLink needsRawLink file = false →
     Table.ensureShareLink fileId needsRawLink (Response 401 share) w
     = (Throw "Authentifizierung erforderlich.", w,
        [Fetch "POST" ("/api/files/" +:+ fileId +:+ "/share");
         SetLocation "/login"]))
  ∧ (Actions.copyMode (state w) ≠ "view" →
     Actions.copyMode (state w) ≠ "download" →
     Table.hasLink (String.eqb (Actions.copyMode (state w)) "raw") file
     = false →
     run (Actions.copyLinkForFile fileId (Response 401 share)) w
     = (w, [Fetch "POST" ("/api/files/" +:+ fileId +:+ "/share");
            SetLocation "/login";
            ShowToast "Authentifizierung erforderlich." Toast.error])).
Proof.
  intros Hfind. split_and!.
  - by destruct rev.
  - unfold run, Table.deleteFile, try_catch. mstep. rewrite Hfind.
    munfold. mrun. reflexivity.
  - reflexivity.
  - unfold run, Actions.hideFileFromPublic, try_catch. mstep. rewrite Hfind.
    munfold. mrun. reflexivity.
  - intros Hurl. unfold run, CardActions.onRevokeClick. rewrite Hurl.
    reflexivity.
  - intros Hurl. unfold run, Cards.ensureShareLink. rewrite Hurl.
    reflexivity.
  - intros Hlink. unfold Table.ensureShareLink. mstep.
    rewrite Hfind, Hlink. munfold. mrun. reflexivity.
  - intros Hview Hdown Hlink.
    assert (Hcallee :
      Table.ensureShareLink fileId
        (String.eqb (Actions.copyMode (state w)) "raw")
        (Response 401 share) w
      = (Throw "Authentifizierung erforderlich.", w,
         [Fetch "POST" ("/api/files/" +:+ fileId +:+ "/share");
          SetLocation "/login"])).
    { unfold Table.ensureShareLink. mstep.
      rewrite Hfind, Hlink. munfold. mrun. reflexivity. }
    unfold run, Actions.copyLinkForFile. mstep. rewrite Hfind. cbn zeta.
    rewrite (proj2 (String.eqb_neq _ _) Hview),
      (proj2 (String.eqb_neq _ _) Hdown).
    unfold try_catch. rewrite bind_unfold, Hcallee. reflexivity.
Qed.

Lemma unauthorized_redirects_everywhere_witness :
  run (Table.deleteFile "f1" true (Response 401 (JsonNull "data is null")))
      (shareWorld None)
  = (shareWorld None,
     [Fetch "DELETE" "/api/files/f1"; SetLocation "/login"])
  ∧ run (Actions.copyLinkForFile "f1"
           (Response 401 (JsonNull "data is null")))
        (shareWorld None)
    = (shareWorld None,
       [Fetch "POST" "/api/files/f1/share"; SetLocation "/login";
        ShowToast "Authentifizierung erforderlich." Toast.error]).
Proof.
  pose proof (unauthorized_redirects_everywhere "f1" 0 demoFile
                (shareWorld None) TableView false
                (JsonNull "data is null") (Rejected "offline")
                (JsonNull "data is null") (JsonNull "data is null")
                false eq_refl)
    as (_ & Hdelete & _ & _ & _ & _ & _ & Hcopy).
  split; [exact Hdelete|].
  apply Hcopy; [discriminate|discriminate|reflexivity].
Defined.

(** X8. A request the server refuses (outside 2xx, not 401) changes
    nothing: delete, hide and revoke leave the world exactly as it was and
    show one error notification.  For delete and hide its text is the
    server's message when the body has one, the message of the engine's
    [TypeError] when the body is [null], and the action's own text
    otherwise; for revoke it is always the fixed text.  [ensureShareLink]
    of the table view throws the server's message. *)
Theorem refusal_changes_nothing (fileId : string) (i : nat)
    (file : FileRecord.t) (w : World) (status : Z)
    (listingAfter : FetchResult Listing.t) (body : Json ErrorBody)
    (needsRawLink : bool) (shareMessage : option string) :
  findFile fileId (files (state w)) = Some (i, file) →
  status ≠ 401%Z →
  ok status = false →
  run (Table.deleteFile fileId true (Response status body)) w
  = (w, [Fetch "DELETE" ("/api/files/" +:+ fileId);
         ShowToast (errorText body "Die Datei konnte nicht gelöscht werden.")
                   Toast.error])
  ∧ run (Cards.onDeleteClick file true (Response status body) listingAfter) w
    = (w, [Fetch "DELETE" ("/api/files/" +:+ FileRecord.id file);
           ShowToast
             (errorText body "Die Datei konnte nicht gelöscht werden.")
             Toast.error])
  ∧ run (Actions.hideFileFromPublic fileId (Response status body)) w
    = (w, [Fetch "DELETE" ("/api/files/" +:+ fileId +:+ "/share");
           ShowToast
             (errorText body "Der Link konnte nicht versteckt werden.")
             Toast.error])
  ∧ (truthy (FileRecord.share_url file) = true →
     run (CardActions.onRevokeClick file true (Response status body)) w
     = (w, [Fetch "DELETE"
              ("/api/files/" +:+ FileRecord.id file +:+ "/share");
            ShowToast "Der Freigabelink konnte nicht entfernt werden."
                      Toast.error]))
  ∧ (Table.hasLink needsRawLink file = false →
     Table.ensureShareLink fileId needsRawLink
       (Response status
          (JsonObject (Share.mk None None None shareMessage))) w
     = (Throw (or_text shareMessage
                       "Der Freigabelink konnte nicht erstellt werden."),
        w, [Fetch "POST" ("/api/files/" +:+ fileId +:+ "/share")])).
Proof.
  intros Hfind H401 Hok.
  pose proof (proj2 (Z.eqb_neq status 401) H401) as Hne.
  split_and!.
  - unfold run, Table.deleteFile, try_catch, handleUnauthorizedResponse.
    mstep. rewrite Hfind. munfold. mrun. rewrite Hne. mrun. rewrite Hok.
    destruct body as [m|typeError|data]; mrun; cbn [errorText];
      rewrite ?or_text_idem by done; reflexivity.
  - unfold run, Cards.onDeleteClick, try_catch, handleUnauthorizedResponse.
    munfold. mrun. rewrite Hne. mrun. rewrite Hok.
    destruct body as [m|typeError|data]; mrun; cbn [errorText];
      rewrite ?or_text_idem by done; reflexivity.
  - unfold run, Actions.hideFileFromPublic, try_catch,
      handleUnauthorizedResponse.
    mstep. rewrite Hfind. munfold. mrun. rewrite Hne. mrun. rewrite Hok.
    destruct body as [m|typeError|data]; mrun; cbn [errorText];
      rewrite ?or_text_idem by done; reflexivity.
  - intros Hurl.
    unfold run, CardActions.onRevokeClick, try_catch,
      handleUnauthorizedResponse.
    rewrite Hurl. munfold. mrun. rewrite Hne. mrun. rewrite Hok. mrun.
    reflexivity.
  - intros Hlink. unfold Table.ensureShareLink, handleUnauthorizedResponse.
    mstep. rewrite Hfind, Hlink. munfold. mrun. rewrite Hne. mrun.
    rewrite Hok. mrun. reflexivity.
Qed.

Lemma refusal_changes_nothing_witness :
  run (Actions.hideFileFromPublic "f1"
         (Response 403 (JsonObject (mkErrorBody (Some "Nicht erlaubt")))))
      (shareWorld (Some "/s/abc"))
  = (shareWorld (Some "/s/abc"),
     [Fetch "DELETE" "/api/files/f1/share";
      ShowToast "Nicht erlaubt" Toast.error]).
Proof.
  apply (refusal_changes_nothing "f1" 0
           (Table.shared demoShareBody demoFile) (shareWorld (Some "/s/abc"))
           403 (Rejected "offline")
           (JsonObject (mkErrorBody (Some "Nicht erlaubt"))) false None);
    [reflexivity | lia | reflexivity].
Defined.

(** X9. An identifier the registry does not hold: delete, hide and copy of
    the table view show the not-found notification, [ensureShareLink]
    throws, and in every case nothing is requested and nothing changes. *)
Theorem unknown_file_no_request (fileId : string) (w : World)
    (confirmed needsRawLink : bool) (body : FetchResult ErrorBody)
    (share : FetchResult Share.t) :
  findFile fileId (files (state w)) = None →
  run (Table.deleteFile fileId confirmed body) w = (w, [notFoundToast])
  ∧ run (Actions.hideFileFromPublic fileId body) w = (w, [notFoundToast])
  ∧ run (Actions.copyLinkForFile fileId share) w = (w, [notFoundToast])
  ∧ Table.ensureShareLink fileId needsRawLink share w
    = (Throw "Datei wurde nicht gefunden.", w, []).
Proof.
  intros Hfind.
  unfold run, Table.deleteFile, Actions.hideFileFromPublic,
    Actions.copyLinkForFile, Table.ensureShareLink.
  mstep. rewrite Hfind. done.
Qed.

Lemma unknown_file_no_request_witness :
  run (Table.deleteFile "f2" true demoDeleted) (shareWorld None)
  = (shareWorld None, [notFoundToast]).
Proof.
  apply (unknown_file_no_request "f2" (shareWorld None) true false
           demoDeleted demoShare).
  reflexivity.
Defined.

(** ** The registry under insert, hide and delete *)

Lemma insertOrUpdateFile_found (s : State) (i : nat) (old new : FileRecord.t) :
  findFile (FileRecord.id new) (files s) = Some (i, old) →
  files (insertOrUpdateFile_state new s) = <[i := new]> (files s)
  ∧ findFile (FileRecord.id new) (files (insertOrUpdateFile_state new s))
    = Some (i, new).
Proof.
  intros Hfind. unfold insertOrUpdateFile_state. rewrite Hfind.
  cbn [files set_files set_totalSize]. split; [done|].
  by eapply findFile_insert.
Qed.

Lemma fmap_id_insert (l : list FileRecord.t) i old new :
  l !! i = Some old → FileRecord.id old = FileRecord.id new →
  FileRecord.id <$> <[i := new]> l = FileRecord.id <$> l.
Proof.
  intros Hi Hid. rewrite list_fmap_insert. apply list_insert_id.
  rewrite list_lookup_fmap, Hi. cbn. by rewrite Hid.
Qed.

Lemma elem_of_insert_other (l : list FileRecord.t) i old new other :
  l !! i = Some old → FileRecord.id old = FileRecord.id new →
  FileRecord.id other ≠ FileRecord.id new →
  other ∈ <[i := new]> l ↔ other ∈ l.
Proof.
  intros Hi Hid Hne. rewrite !list_elem_of_lookup. split; intros [j Hj].
  - destruct (decide (i = j)) as [->|Hij].
    + rewrite list_lookup_insert_eq in Hj by (by eapply lookup_lt_Some).
      congruence.
    + rewrite list_lookup_insert_ne in Hj by done. eauto.
  - destruct (decide (i = j)) as [->|Hij]; [congruence|].
    exists j. by rewrite list_lookup_insert_ne.
Qed.

(** X10. Insert-or-update keeps the registry keyed by identifier: if no two
    records shared an identifier before, none do afterwards; looking the
    descriptor's identifier up afterwards finds the descriptor itself;
    records with another identifier are neither added nor lost; and the
    registry grows by one exactly when the identifier was new. *)
Theorem upsert_keeps_ids_unique (file : FileRecord.t) (s : State) :
  NoDup (FileRecord.id <$> files s) →
  let s' := insertOrUpdateFile_state file s in
  NoDup (FileRecord.id <$> files s')
  ∧ (∃ i, findFile (FileRecord.id file) (files s') = Some (i, file))
  ∧ (∀ other, FileRecord.id other ≠ FileRecord.id file →
              other ∈ files s' ↔ other ∈ files s)
  ∧ length (files s')
    = match findFile (FileRecord.id file) (files s) with
      | Some _ => length (files s)
      | None => S (length (files s))
      end.
Proof.
  intros Hnd. cbn zeta.
  destruct (findFile (FileRecord.id file) (files s)) as [[i old]|] eqn:Hfind.
  - destruct (insertOrUpdateFile_found s i old file Hfind) as [-> Hnew].
    apply findFile_Some in Hfind as (Hi & Hid & _).
    split_and!.
    + by rewrite (fmap_id_insert _ _ old).
    + eauto.
    + intros other Hne. by apply (elem_of_insert_other _ _ old).
    + apply length_insert.
  - unfold insertOrUpdateFile_state. rewrite Hfind.
    cbn [files set_files set_totalSize].
    pose proof (proj1 (findFile_None _ _) Hfind) as Hnone.
    split_and!.
    + rewrite fmap_cons. apply NoDup_cons. split; [|done].
      intros (e & He & Hin)%list_elem_of_fmap. by destruct (Hnone e Hin).
    + exists 0. apply findFile_head.
    + intros other Hne. rewrite elem_of_cons. split; [|by right].
      intros [->|?]; [done|done].
    + done.
Qed.

Lemma upsert_keeps_ids_unique_witness :
  NoDup (FileRecord.id
           <$> files (insertOrUpdateFile_state
                        (Table.shared demoShareBody demoFile)
                        (state (shareWorld None)))).
Proof.
  apply (upsert_keeps_ids_unique (Table.shared demoShareBody demoFile)
           (state (shareWorld None))).
  cbn. apply NoDup_singleton.
Defined.

(** X11. After hide succeeded the record stands at its old place without
    share link, raw link and token and is private, the other records are
    as before, and the total is recomputed over the registry (the exact sum
    as long as the sizes stay within the safe integers); a following
    [ensureShareLink] for it has to ask the server again, whichever link
    is wanted. *)
Theorem hide_then_share_asks_again (fileId : string) (i : nat)
    (file : FileRecord.t) (w : World) (status : Z) (body : Json ErrorBody)
    (needsRawLink : bool) (server' : FetchResult Share.t) :
  findFile fileId (files (state w)) = Some (i, file) →
  ok status = true →
  let result :=
    run (Actions.hideFileFromPublic fileId (Response status body)) w in
  files (state (fst result)) = <[i := Actions.hidden file]> (files (state w))
  ∧ findFile fileId (files (state (fst result)))
    = Some (i, Actions.hidden file)
  ∧ (safe_sizes (files (state (fst result))) →
     totalSize (state (fst result))
     = sum_of_sizes (files (state (fst result))))
  ∧ snd result = [Fetch "DELETE" ("/api/files/" +:+ fileId +:+ "/share");
                  RenderFiles; UpdateStats;
                  ShowToast "Datei ist nun privat." Toast.success]
  ∧ ∃ rest,
      snd (Table.ensureShareLink fileId needsRawLink server' (fst result))
      = Fetch "POST" ("/api/files/" +:+ fileId +:+ "/share") :: rest.
Proof.
  intros Hfind Hok. cbn zeta.
  assert (Hid : FileRecord.id (Actions.hidden file) = fileId)
    by (apply findFile_Some in Hfind; cbn; tauto).
  assert (Hfind' : findFile (FileRecord.id (Actions.hidden file))
                            (files (state w)) = Some (i, file))
    by (by rewrite Hid).
  destruct (insertOrUpdateFile_found _ _ _ _ Hfind') as [Hfiles Hnew].
  rewrite Hid in Hnew.
  assert (Hrun :
    run (Actions.hideFileFromPublic fileId (Response status body)) w
    = (set_state (insertOrUpdateFile_state (Actions.hidden file) (state w)) w,
       [Fetch "DELETE" ("/api/files/" +:+ fileId +:+ "/share");
        RenderFiles; UpdateStats;
        ShowToast "Datei ist nun privat." Toast.success])).
  { unfold run, Actions.hideFileFromPublic, try_catch,
      handleUnauthorizedResponse.
    mstep. rewrite Hfind. munfold. mrun. rewrite (ok_not_401 _ Hok). mrun.
    rewrite Hok. mrun. reflexivity. }
  rewrite Hrun. cbn [fst snd state set_state]. split_and!; try done.
  - apply reduceSize_sum.
  - unfold Table.ensureShareLink. mstep. cbn [state set_state].
    rewrite Hnew.
    replace (Table.hasLink needsRawLink (Actions.hidden file)) with false
      by (by destruct needsRawLink).
    munfold. mstep.
    destruct (_ ≫= _) as [[c w1] rest] eqn:Hrest. cbn. eauto.
Qed.

Lemma hide_then_share_asks_again_witness :
  ∃ rest,
    snd (Table.ensureShareLink "f1" false demoShare
           (fst (run (Actions.hideFileFromPublic "f1" demoDeleted)
                     (shareWorld (Some "/s/abc")))))
    = Fetch "POST" "/api/files/f1/share" :: rest.
Proof.
  apply (hide_then_share_asks_again "f1" 0
           (Table.shared demoShareBody demoFile) (shareWorld (Some "/s/abc"))
           200 (JsonObject (mkErrorBody None)) false demoShare);
    reflexivity.
Defined.

Lemma findFile_filter_out (fileId : string) (l : list FileRecord.t) :
  findFile fileId (filter (λ entry, FileRecord.id entry ≠ fileId) l) = None.
Proof.
  apply findFile_None. by intros e [? _]%list_elem_of_filter.
Qed.

Lemma NoDup_ids_filter (P : FileRecord.t → Prop) `{∀ x, Decision (P x)}
    (l : list FileRecord.t) :
  NoDup (FileRecord.id <$> l) → NoDup (FileRecord.id <$> filter P l).
Proof.
  induction l as [|f l IH]; [done|].
  rewrite fmap_cons, NoDup_cons, filter_cons. intros [Hf Hnd].
  destruct (decide (P f)); [|by apply IH].
  rewrite fmap_cons. apply NoDup_cons. split; [|by apply IH].
  intros (e & He & [_ Hin]%list_elem_of_filter)%list_elem_of_fmap.
  apply Hf. apply list_elem_of_fmap. eauto.
Qed.

(** X12. After the table view's delete succeeded no record with the
    identifier is left while every other record stays, in order, and
    identifiers stay unique; deleting the same identifier again finds
    nothing, asks the server nothing and only shows the not-found
    notification. *)
Theorem delete_then_lookup (fileId : string) (i : nat) (file : FileRecord.t)
    (w : World) (status : Z) (body : Json ErrorBody)
    (again : FetchResult ErrorBody) :
  findFile fileId (files (state w)) = Some (i, file) →
  ok status = true →
  let w' := fst (run (Table.deleteFile fileId true (Response status body)) w) in
  findFile fileId (files (state w')) = None
  ∧ (∀ other, FileRecord.id other ≠ fileId →
              other ∈ files (state w') ↔ other ∈ files (state w))
  ∧ files (state w') `sublist_of` files (state w)
  ∧ (NoDup (FileRecord.id <$> files (state w)) →
     NoDup (FileRecord.id <$> files (state w')))
  ∧ run (Table.deleteFile fileId true again) w' = (w', [notFoundToast]).
Proof.
  intros Hfind Hok. cbn zeta.
  assert (Hw' :
    fst (run (Table.deleteFile fileId true (Response status body)) w)
    = set_state
        (set_files (filter (λ entry, FileRecord.id entry ≠ fileId)
                           (files (state w))) (state w)) w).
  { unfold run. by rewrite (table_deleteFile_ok _ _ _ _ _ _ Hfind Hok). }
  rewrite Hw'. cbn [fst state set_state files set_files].
  split_and!.
  - apply findFile_filter_out.
  - intros other Hne. rewrite list_elem_of_filter. tauto.
  - apply sublist_filter.
  - apply NoDup_ids_filter.
  - unfold run, Table.deleteFile. mstep. cbn [state set_state files set_files].
    by rewrite findFile_filter_out.
Qed.

Lemma delete_then_lookup_witness :
  findFile "f1"
    (files (state (fst (run (Table.deleteFile "f1" true demoDeleted)
                            (shareWorld None)))))
  = None.
Proof.
  apply (delete_then_lookup "f1" 0 demoFile (shareWorld None) 200
           (JsonObject (mkErrorBody None)) demoDeleted); reflexivity.
Defined.

(** ** Copying a link *)

Lemma ensureShareLink_request_ok fileId needsRawLink status data w i file :
  findFile fileId (files (state w)) = Some (i, file) →
  Table.hasLink needsRawLink file = false →
  ok status = true →
  Table.ensureShareLink fileId needsRawLink
    (Response status (JsonObject data)) w
  = (Normal (Table.shared data file),
     set_state (insertOrUpdateFile_state (Table.shared data file) (state w)) w,
     [Fetch "POST" ("/api/files/" +:+ fileId +:+ "/share");
      RenderFiles; UpdateStats]).
Proof.
  intros Hfind Hlink Hok.
  assert (Hid : FileRecord.id (Table.shared data file) = fileId)
    by (apply findFile_Some in Hfind; cbn; tauto).
  assert (Hfind' : findFile (FileRecord.id (Table.shared data file))
                            (files (state w)) = Some (i, file))
    by (by rewrite Hid).
  destruct (insertOrUpdateFile_found _ _ _ _ Hfind') as [_ Hnew].
  rewrite Hid in Hnew.
  unfold Table.ensureShareLink, handleUnauthorizedResponse.
  mstep. rewrite Hfind, Hlink. munfold. mrun.
  rewrite (ok_not_401 _ Hok). mrun. rewrite Hok. mrun.
  cbn [state set_state]. rewrite Hnew. reflexivity.
Qed.

Lemma hasLink_shareLink mode file :
  Table.hasLink (String.eqb mode "raw") file = true →
  truthy (Actions.shareLinkOf mode file) = true.
Proof.
  unfold Table.hasLink, Actions.shareLinkOf, or_else.
  destruct (String.eqb mode "raw"); cbn.
  - intros [_ Hraw]%andb_true_iff. by rewrite Hraw.
  - by intros [Hurl _]%andb_true_iff.
Qed.

(** X13. [copyLinkForFile] by copy mode.  In the modes view and download it
    never asks the server: it copies the record's URL, or shows an error
    notification when the record has none.  In every other mode a
    sufficient share link is copied without a request; a missing one is
    requested, merged into the registry and then copied, the raw link first
    in mode raw.  When the answer brings no link at all, the error
    notification is shown although the record has been marked public. *)
Theorem copy_link_by_mode (fileId : string) (i : nat) (file : FileRecord.t)
    (w : World) (server : FetchResult Share.t) (status : Z) (data : Share.t) :
  findFile fileId (files (state w)) = Some (i, file) →
  let mode := Actions.copyMode (state w) in
  let raw := String.eqb mode "raw" in
  (mode = "view" →
   run (Actions.copyLinkForFile fileId server) w
   = (w, if truthy (FileRecord.view_url file)
         then [CopyToClipboard (default EmptyString (FileRecord.view_url file))
                               "Link kopiert."]
         else [ShowToast "Kein Vorschaulink verfügbar." Toast.error]))
  ∧ (mode = "download" →
     run (Actions.copyLinkForFile fileId server) w
     = (w, if truthy (FileRecord.download_url file)
           then [CopyToClipboard
                   (default EmptyString (FileRecord.download_url file))
                   "Downloadlink kopiert."]
           else [ShowToast "Kein Downloadlink verfügbar." Toast.error]))
  ∧ (mode ≠ "view" → mode ≠ "download" →
     Table.hasLink raw file = true →
     run (Actions.copyLinkForFile fileId server) w
     = (w, [CopyToClipboard
              (default EmptyString (Actions.shareLinkOf mode file))
              "Freigabelink kopiert."]))
  ∧ (mode ≠ "view" → mode ≠ "download" →
     Table.hasLink raw file = false → ok status = true →
     run (Actions.copyLinkForFile fileId (Response status (JsonObject data))) w
     = (set_state
          (insertOrUpdateFile_state (Table.shared data file) (state w)) w,
        [Fetch "POST" ("/api/files/" +:+ fileId +:+ "/share");
         RenderFiles; UpdateStats]
        ++ if truthy (Actions.shareLinkOf mode (Table.shared data file))
           then [CopyToClipboard
                   (default EmptyString
                      (Actions.shareLinkOf mode (Table.shared data file)))
                   "Freigabelink kopiert."]
           else [ShowToast "Es konnte kein Freigabelink erzeugt werden."
                           Toast.error])
       ∧ FileRecord.is_public (Table.shared data file) = true
       ∧ (truthy (Share.share_url data) = false →
          truthy (Share.share_raw_url data) = false →
          truthy (Actions.shareLinkOf mode (Table.shared data file)) = false)).
Proof.
  intros Hfind. cbn zeta.
  assert (Hstart : ∀ server0,
    run (Actions.copyLinkForFile fileId server0) w
    = run (let mode := Actions.copyMode (state w) in
           try_catch
             (if String.eqb mode "download" then
                if negb (truthy (FileRecord.download_url file))
                then throw "Kein Downloadlink verfügbar."
                else Cards.copyToClipboard (FileRecord.download_url file)
                                           "Downloadlink kopiert."
              else if String.eqb mode "view" then
                if negb (truthy (FileRecord.view_url file))
                then throw "Kein Vorschaulink verfügbar."
                else Cards.copyToClipboard (FileRecord.view_url file)
                                           "Link kopiert."
              else
                updatedFile ← Table.ensureShareLink fileId
                                (String.eqb mode "raw") server0;
                let shareLink := Actions.shareLinkOf mode updatedFile in
                if negb (truthy shareLink)
                then throw "Es konnte kein Freigabelink erzeugt werden."
                else Cards.copyToClipboard shareLink "Freigabelink kopiert.")
             (λ msg, showToast (or_text (Some msg)
                                  "Link konnte nicht kopiert werden.")
                               Toast.error)) w).
  { intros server0. unfold run, Actions.copyLinkForFile. mstep.
    by rewrite Hfind. }
  split_and!.
  - intros Hmode. rewrite Hstart. cbn zeta. rewrite Hmode.
    unfold run, try_catch, Cards.copyToClipboard. cbn [String.eqb Ascii.eqb Bool.eqb].
    destruct (truthy (FileRecord.view_url file)); reflexivity.
  - intros Hmode. rewrite Hstart. cbn zeta. rewrite Hmode.
    unfold run, try_catch, Cards.copyToClipboard. cbn [String.eqb Ascii.eqb Bool.eqb].
    destruct (truthy (FileRecord.download_url file)); reflexivity.
  - intros Hview Hdown Hlink. rewrite Hstart. cbn zeta.
    rewrite (proj2 (String.eqb_neq _ _) Hview),
      (proj2 (String.eqb_neq _ _) Hdown).
    unfold run, try_catch, Cards.copyToClipboard.
    rewrite bind_unfold, (ensureShareLink_has_link _ _ _ _ _ _ Hfind Hlink).
    rewrite (hasLink_shareLink _ _ Hlink). reflexivity.
  - intros Hview Hdown Hlink Hok. split_and!; [|done|].
    + rewrite Hstart. cbn zeta.
      rewrite (proj2 (String.eqb_neq _ _) Hview),
        (proj2 (String.eqb_neq _ _) Hdown).
      unfold run, try_catch, Cards.copyToClipboard.
      rewrite bind_unfold,
        (ensureShareLink_request_ok _ _ _ _ _ _ _ Hfind Hlink Hok).
      destruct (truthy (Actions.shareLinkOf _ (Table.shared data file)));
        reflexivity.
    + intros Hurl Hraw. unfold Actions.shareLinkOf, Table.shared, or_else.
      cbn. rewrite Hraw.
      destruct (String.eqb _ "raw"); by rewrite ?Hurl.
Qed.

Lemma copy_link_by_mode_witness :
  run (Actions.copyLinkForFile "f1" demoShare) (shareWorld None)
  = (shareWorld (Some "/s/abc"),
     [Fetch "POST" "/api/files/f1/share"; RenderFiles; UpdateStats;
      CopyToClipboard "/s/abc" "Freigabelink kopiert."]).
Proof.
  apply (proj1 (proj2 (proj2 (proj2
           (copy_link_by_mode "f1" 0 demoFile (shareWorld None) demoShare
              200 demoShareBody eq_refl)))
           ltac:(discriminate) ltac:(discriminate) eq_refl eq_refl)).
Defined.

(** ** Revoking a link in the card grid *)

(** X14. After revoke succeeded in the card grid the registry's record has
    lost [share_url] and nothing else: the copy button finds no link, a
    following [ensureShareLink] asks the server again, but the direct link
    the record had is still there and the direct-link button still copies
    it. *)
Theorem revoke_keeps_direct_link (file : FileRecord.t) (i : nat) (w : World)
    (status : Z) (body : Json ErrorBody) (server' : FetchResult Share.t) :
  findFile (FileRecord.id file) (files (state w)) = Some (i, file) →
  truthy (FileRecord.share_url file) = true →
  ok status = true →
  let revoked := FileRecord.set_share_url None file in
  let w' :=
    fst (run (CardActions.onRevokeClick file true (Response status body)) w) in
  findFile (FileRecord.id file) (files (state w')) = Some (i, revoked)
  ∧ FileRecord.share_raw_url revoked = FileRecord.share_raw_url file
  ∧ FileRecord.is_public revoked = FileRecord.is_public file
  ∧ run (CardActions.onCopyClick revoked) w'
    = (w', [ShowToast "Es gibt noch keinen Freigabelink." Toast.info])
  ∧ (truthy (FileRecord.share_raw_url file) = true →
     run (CardActions.onCopyDirectClick revoked) w'
     = (w', [CopyToClipboard
               (default EmptyString (FileRecord.share_raw_url file))
               "In die Zwischenablage kopiert."]))
  ∧ ∃ rest,
      snd (run (Cards.ensureShareLink revoked server') w')
      = Fetch "POST" ("/api/files/" +:+ FileRecord.id file +:+ "/share")
        :: rest.
Proof.
  intros Hfind Hurl Hok. cbn zeta.
  destruct (insertOrUpdateFile_found (state w) i file
              (FileRecord.set_share_url None file) Hfind) as [_ Hnew].
  assert (Hw' :
    fst (run (CardActions.onRevokeClick file true (Response status body)) w)
    = set_state (insertOrUpdateFile_state
                   (FileRecord.set_share_url None file) (state w)) w).
  { unfold run, CardActions.onRevokeClick, try_catch,
      handleUnauthorizedResponse.
    rewrite Hurl. munfold. mrun. rewrite (ok_not_401 _ Hok). mrun.
    rewrite Hok. mrun. reflexivity. }
  rewrite Hw'. split_and!; try done.
  - intros Hraw. unfold run, CardActions.onCopyDirectClick,
      Cards.copyToClipboard.
    cbn [FileRecord.share_raw_url FileRecord.set_share_url]. by rewrite Hraw.
  - unfold run, Cards.ensureShareLink, try_catch. cbn [truthy FileRecord.share_url FileRecord.set_share_url].
    munfold. mstep.
    destruct (_ ≫= _) as [[[c|msg] w1] rest] eqn:Hrest; cbn.
    + eauto.
    + eauto.
Qed.

Lemma revoke_keeps_direct_link_witness :
  run (CardActions.onCopyDirectClick (FileRecord.set_share_url None sharedFile))
      (fst (run (CardActions.onRevokeClick sharedFile true demoDeleted)
                (shareWorld (Some "/s/abc"))))
  = (fst (run (CardActions.onRevokeClick sharedFile true demoDeleted)
              (shareWorld (Some "/s/abc"))),
     [CopyToClipboard "/s/abc" "In die Zwischenablage kopiert."]).
Proof.
  apply (revoke_keeps_direct_link sharedFile 0 (shareWorld (Some "/s/abc")) 200
           (JsonObject (mkErrorBody None)) demoShare
           eq_refl eq_refl eq_refl).
  reflexivity.
Defined.

(** ** The storage figures *)

Lemma round_div_1024 (bytes : Z) :
  round (inject_Z bytes / 1024) = ((2 * bytes + 1024) / 2048)%Z.
Proof.
  unfold round, Qdiv, Qmult, Qplus, Qinv, inject_Z, Qfloor.
  cbn [Qnum Qden].
  change (Z.pos (1024 * 2)) with 2048%Z.
  change (Z.pos (1 * 1024)) with 1024%Z.
  f_equal. lia.
Qed.

Lemma toFixed_tenths (bytes : Z) (unit : positive) :
  toFixed (inject_Z bytes / inject_Z (Z.pos unit)) 1
  = one_decimal (tenths bytes (Z.pos unit)).
Proof.
  unfold toFixed, one_decimal, tenths.
  assert (Hn : Qfloor (inject_Z bytes / inject_Z (Z.pos unit)
                       * inject_Z (10 ^ Z.of_nat 1) + (1 # 2))
               = ((20 * bytes + Z.pos unit) / (2 * Z.pos unit))%Z).
  { unfold Qdiv, Qmult, Qplus, Qinv, inject_Z, Qfloor. cbn [Qnum Qden].
    change (10 ^ Z.of_nat 1)%Z with 10%Z.
    f_equal; lia. }
  rewrite Hn. change (10 ^ Z.of_nat 1)%Z with 10%Z.
  set (n := ((20 * bytes + Z.pos unit) / (2 * Z.pos unit))%Z).
  pose proof (Z.mod_pos_bound n 10 ltac:(lia)) as Hmod.
  assert (Hdigit : String.length (pretty (n mod 10)%Z) = 1).
  { assert (Hcases : (n mod 10 = 0 ∨ n mod 10 = 1 ∨ n mod 10 = 2
                      ∨ n mod 10 = 3 ∨ n mod 10 = 4 ∨ n mod 10 = 5
                      ∨ n mod 10 = 6 ∨ n mod 10 = 7 ∨ n mod 10 = 8
                      ∨ n mod 10 = 9)%Z) by lia.
    repeat destruct Hcases as [-> | Hcases]; try reflexivity.
    by rewrite Hcases. }
  rewrite Hdigit. reflexivity.
Qed.

(** X15. [formatStorage] on a whole byte count: below 1024 the count itself
    with unit B; from 1024 up to 1024² the nearest whole number of
    kibibytes (a half rounds up) with unit KB, which is 1024 for the last
    512 counts of the range; from there on tenths of a mebibyte, between
    1.0 and 1024.0, with unit MB; and from 1024³ on tenths of a gibibyte
    with unit GB. *)
Theorem formatStorage_units (bytes : Z) :
  ((bytes < 1024)%Z → formatStorage bytes = pretty bytes +:+ " B")
  ∧ ((1024 ≤ bytes < 1024 ^ 2)%Z →
     ∃ k : Z,
       formatStorage bytes = pretty k +:+ " KB"
       ∧ (1 ≤ k ≤ 1024)%Z
       ∧ (1024 * k - 512 ≤ bytes < 1024 * k + 512)%Z
       ∧ (k = 1024%Z ↔ (1024 ^ 2 - 512 ≤ bytes)%Z))
  ∧ ((1024 ^ 2 ≤ bytes < 1024 ^ 3)%Z →
     ∃ n : Z,
       formatStorage bytes = one_decimal n +:+ " MB"
       ∧ (10 ≤ n ≤ 10240)%Z
       ∧ (2 * 1024 ^ 2 * n - 1024 ^ 2 ≤ 20 * bytes
          < 2 * 1024 ^ 2 * n + 1024 ^ 2)%Z)
  ∧ ((1024 ^ 3 ≤ bytes)%Z →
     ∃ n : Z,
       formatStorage bytes = one_decimal n +:+ " GB"
       ∧ (10 ≤ n)%Z
       ∧ (2 * 1024 ^ 3 * n - 1024 ^ 3 ≤ 20 * bytes
          < 2 * 1024 ^ 3 * n + 1024 ^ 3)%Z).
Proof.
  unfold formatStorage.
  split_and!; intros Hrange.
  - rewrite !(proj2 (Z.leb_gt _ _)) by lia. reflexivity.
  - rewrite !(proj2 (Z.leb_gt _ _)) by lia.
    rewrite (proj2 (Z.leb_le _ _)) by lia.
    exists ((2 * bytes + 1024) / 2048)%Z.
    rewrite round_div_1024.
    pose proof (Z.div_mod (2 * bytes + 1024) 2048 ltac:(lia)) as Hdiv.
    pose proof (Z.mod_pos_bound (2 * bytes + 1024) 2048 ltac:(lia)) as Hmod.
    split_and!; try done; try lia.
  - rewrite (proj2 (Z.leb_gt (1024 ^ 3) _)) by lia.
    rewrite (proj2 (Z.leb_le (1024 ^ 2) _)) by lia.
    change (1024 ^ 2)%Z with (Z.pos 1048576) in *.
    change (1024 ^ 3)%Z with (Z.pos 1073741824) in *.
    rewrite toFixed_tenths. eexists. split; [reflexivity|].
    unfold tenths.
    pose proof (Z.div_mod (20 * bytes + 1048576) (2 * 1048576) ltac:(lia))
      as Hdiv.
    pose proof (Z.mod_pos_bound (20 * bytes + 1048576) (2 * 1048576)
                  ltac:(lia)) as Hmod.
    lia.
  - rewrite (proj2 (Z.leb_le (1024 ^ 3) _)) by lia.
    change (1024 ^ 3)%Z with (Z.pos 1073741824) in *.
    rewrite toFixed_tenths. eexists. split; [reflexivity|].
    unfold tenths.
    pose proof (Z.div_mod (20 * bytes + 1073741824) (2 * 1073741824)
                  ltac:(lia)) as Hdiv.
    pose proof (Z.mod_pos_bound (20 * bytes + 1073741824) (2 * 1073741824)
                  ltac:(lia)) as Hmod.
    lia.
Qed.

Lemma filter_all {A} (P : A → Prop) `{∀ x, Decision (P x)} (l : list A) :
  (∀ x, x ∈ l → P x) → filter P l = l.
Proof.
  induction l as [|x l IH]; [done|].
  intros Hall. rewrite filter_cons_True by (apply Hall; left).
  f_equal. apply IH. intros y Hy. apply Hall. by right.
Qed.

(** X16. What [updateStats] shows, the ratio taken exactly: with a total
    and a capacity that are not negative the bar is between 0 and 100 per
    cent, a missing capacity counts as one byte, the bar is full as soon as
    the total reaches the capacity, and the number of shared files counts
    the records with a link, so it never exceeds the number of files. *)
Theorem statsView_bounds (s : State) :
  (0 ≤ totalSize s)%Z → (0 ≤ capacity s)%Z →
  let view := statsView s in
  (0 <= percent view)%Q ∧ (percent view <= 100)%Q
  ∧ (capacity s = 0%Z → totalStorage view = "1 B")
  ∧ ((Z.max 1 (capacity s) ≤ totalSize s)%Z → (percent view == 100)%Q)
  ∧ shareCount view ≤ fileCount view
  ∧ (shareCount view = fileCount view ↔
     ∀ file, file ∈ files s → truthy (FileRecord.share_url file) = true).
Proof.
  intros Hused Hcapacity. cbn zeta. unfold statsView. cbn zeta.
  cbn [percent totalStorage shareCount fileCount].
  set (cap := if (capacity s =? 0)%Z then 1%Z else capacity s).
  assert (Hcap : (0 < cap)%Z ∧ cap = Z.max 1 (capacity s)).
  { subst cap. destruct (Z.eqb_spec (capacity s) 0); lia. }
  destruct Hcap as [Hpos Hmax].
  set (ratio := (inject_Z (totalSize s) / inject_Z cap * 100)%Q).
  assert (Hratio : (ratio == (totalSize s * 100 # Z.to_pos cap))%Q).
  { subst ratio. unfold Qeq, Qdiv, Qmult, Qinv, inject_Z. cbn [Qnum Qden].
    destruct cap as [|p|p]; try lia. cbn [Qnum Qden Z.to_pos]. lia. }
  assert (Hnonneg : (0 <= ratio)%Q).
  { rewrite Hratio. unfold Qle. cbn [Qnum Qden]. lia. }
  split_and!.
  - destruct (Qle_bool ratio 100); [done|]. by unfold Qle.
  - destruct (Qle_bool ratio 100) eqn:Hle.
    + by apply Qle_bool_iff.
    + apply Qle_refl.
  - intros Hzero. subst cap. by rewrite Hzero.
  - intros Hfull. destruct (Qle_bool ratio 100) eqn:Hle; [|reflexivity].
    apply Qle_bool_iff in Hle. apply Qle_antisym; [done|].
    rewrite Hratio. unfold Qle. cbn [Qnum Qden].
    rewrite Z2Pos.id by lia. lia.
  - apply length_filter.
  - split.
    + intros Hlen file Hin.
      destruct (decide (truthy (FileRecord.share_url file) = true))
        as [|Hnot]; [done|].
      pose proof (length_filter_lt
                    (λ file, truthy (FileRecord.share_url file) = true)
                    _ _ Hin Hnot).
      lia.
    + intros Hall. f_equal. by apply filter_all.
Qed.

Lemma statsView_bounds_witness :
  (0 <= percent (statsView (state (shareWorld (Some "/s/abc")))))%Q
  ∧ (percent (statsView (state (shareWorld (Some "/s/abc")))) <= 100)%Q.
Proof.
  pose proof (statsView_bounds (state (shareWorld (Some "/s/abc")))
                ltac:(vm_compute; discriminate) ltac:(vm_compute; discriminate))
    as Hview.
  split; apply Hview.
Defined.

(** ** The shape of the queue *)

Lemma queue_insertOrUpdateFile_state file s :
  queue (insertOrUpdateFile_state file s) = queue s.
Proof. reflexivity. Qed.

Lemma queue_step_sub w w' :
  queue (state w') `sublist_of` queue (state w) → queue_step w w'.
Proof.
  intros Hsub. exists (queue (state w')), 0. cbn. rewrite app_nil_r.
  split_and!; [done|done|]. by intros r ?%elem_of_nil.
Qed.

Lemma queue_step_same w w' :
  queue (state w') = queue (state w) → queue_step w w'.
Proof. intros Heq. apply queue_step_sub. by rewrite Heq. Qed.

Lemma step_queue_step rev w e : queue_step w (step rev w e).
Proof.
  unfold step. destruct e; cbn [handle].
  - rewrite addFilesToQueue_run. cbn [fst].
    exists (queue (state w)), (length (newItem <$> filter accepted fileList)).
    split_and!; [done|done|].
    intros r [_ Hr]%elem_of_seq. apply lookup_lt_is_Some.
    cbn [enqueue heap]. rewrite length_app. lia.
  - apply queue_step_same. unfold run, onStartUploadClick. mstep.
    destruct (existsb _ _); cbn [negb]; [|done].
    destruct (uploadPending_run (queue (state w)) w)
      as (added & w' & -> & Hst & _). cbn. by rewrite Hst.
  - apply queue_step_sub. unfold run, onRemoveClick. munfold. mstep.
    destruct (heap w !! item) as [it|]; [|done].
    destruct (bool_decide _); mstep; [done|]. cbn. apply sublist_filter.
  - apply queue_step_same. unfold run, onProgress.
    destruct lengthComputable; [|done]. munfold. by mstep.
  - apply queue_step_same. unfold run. rewrite bind_modify_world.
    unfold onLoad. destruct (status =? 401)%Z; [done|].
    unfold try_catch, uploadFailed. munfold.
    destruct responseText as [msg|typeError|data]; destruct (ok status); mcase; done.
  - apply queue_step_same. unfold run. rewrite bind_modify_world.
    unfold onError. munfold. mcase; done.
  - apply queue_step_sub. unfold run. rewrite bind_modify_world.
    unfold onRemovalTimeout. munfold. mstep. cbn [heap set_timers].
    destruct (heap w !! item) as [it|]; [|done]. mstep.
    destruct (list_find _ _) as [[index entry]|]; [|done].
    destruct (bool_decide _); mstep; [|done]. cbn. apply sublist_delete.
  - by apply queue_step_same.
  - apply queue_step_same. unfold run. rewrite bind_modify_world.
    destruct rev; unfold refreshFiles_resume, Table.refreshFiles_resume,
      Cards.refreshFiles_resume, try_catch, handleUnauthorizedResponse;
      munfold;
      (destruct server as [reason|status body]; [done|]);
      mrun;
      (destruct (status =? 401)%Z; mrun; [done|]);
      (destruct (ok status); mrun; [|done]);
      (destruct body as [msg|typeError|data]; mrun; [done|done|]);
      mcase; destruct showToastOnSuccess; mrun; done.
Qed.

(** A removal timer is armed by the [load] listener only, and only after it
    has set the item's status to [success]. *)
Lemma onLoad_timers item it status responseText w :
  heap w !! item = Some it →
  let w' := fst (run (onLoad item status responseText) w) in
  timers w' = timers w
  ∨ (timers w' = timers w ++ [item]
     ∧ ∃ it', heap w' !! item = Some it' ∧ QueueItem.status it' = success).
Proof.
  intros Hit. cbn zeta. unfold run, onLoad.
  destruct (status =? 401)%Z; [by left|].
  unfold try_catch, uploadFailed. munfold.
  destruct responseText as [msg|typeError|data]; destruct (ok status); mrun;
    cbn [heap set_heap]; rewrite ?list_alter_alter_eq;
    rewrite ?(alter_lookup_Some _ _ _ _ Hit); mrun; try (by left).
  destruct (Upload.uploadedFile data); mrun; right; cbn;
    rewrite ?list_alter_alter_eq, (alter_lookup_Some _ _ _ _ Hit); eauto.
Qed.

Lemma step_timers rev w e r :
  in_flight_uploading w → enabled w e →
  r ∈ timers (step rev w e) →
  r ∈ timers w
  ∨ ∃ it, heap (step rev w e) !! r = Some it ∧ QueueItem.status it = success.
Proof.
  intros [_ Hup] Hen. unfold step. destruct e; cbn [handle].
  - rewrite addFilesToQueue_run. cbn. by left.
  - unfold run, onStartUploadClick. mstep.
    destruct (existsb _ _); cbn [negb]; [|by left].
    destruct (uploadPending_run (queue (state w)) w)
      as (added & w' & -> & _ & Hti & _). cbn. rewrite Hti. by left.
  - unfold run, onRemoveClick. munfold. mstep.
    destruct (heap w !! item) as [it|]; [|by left].
    destruct (bool_decide _); mstep; by left.
  - unfold run, onProgress.
    destruct lengthComputable; [|by left]. munfold. mstep. by left.
  - unfold run. rewrite bind_modify_world.
    destruct (Hup item Hen) as (it & Hit & _).
    destruct (onLoad_timers item it status responseText
                (set_xhrs (remove_first item (xhrs w)) w) Hit)
      as [Hti|[Hti Hsuccess]]; unfold run in Hti; rewrite Hti; cbn.
    + by left.
    + intros [Hr|Hr%list_elem_of_singleton]%elem_of_app; [by left|].
      subst r. by right.
  - unfold run. rewrite bind_modify_world.
    unfold onError. munfold. mcase; by left.
  - unfold run. rewrite bind_modify_world.
    unfold onRemovalTimeout. munfold. mstep. cbn [heap set_timers].
    assert (Hsub : ∀ l : list nat, r ∈ remove_first item l → r ∈ l).
    { induction l as [|y l IH]; cbn; [done|].
      destruct (decide (item = y)).
      - by right.
      - intros [->|?]%elem_of_cons; [left|right; auto]. }
    destruct (heap w !! item) as [it|]; [|cbn; left; by apply Hsub]. mstep.
    destruct (list_find _ _) as [[index entry]|]; [|cbn; left; by apply Hsub].
    destruct (bool_decide _); mstep; cbn; left; by apply Hsub.
  - cbn. by left.
  - unfold run. rewrite bind_modify_world.
    destruct rev; unfold refreshFiles_resume, Table.refreshFiles_resume,
      Cards.refreshFiles_resume, try_catch, handleUnauthorizedResponse;
      munfold;
      (destruct server as [reason|status body]; [by left|]);
      mrun;
      (destruct (status =? 401)%Z; mrun; [by left|]);
      (destruct (ok status); mrun; [|by left]);
      (destruct body as [msg|typeError|data]; mrun; [by left|by left|]);
      mcase; destruct showToastOnSuccess; mrun; by left.
Qed.

(** X17. In every world the event loop can reach, in both revisions, the
    upload queue holds no entry twice, every entry is an allocated item,
    and every armed removal timer belongs to an item whose status is
    [success]: the guard of the timer's callback is there for an entry with
    the same identifier, not for the timer's own item. *)
Theorem reachable_queue_well_formed (rev : Revision) (w : World) :
  reachable rev w → queue_well_formed w.
Proof.
  induction 1 as [initialFiles initialTotalSize initialCapacity prefs
                 |w e Hreach (Hnd & Halloc & Htimers) Hen].
  - split_and!; [constructor| |]; by intros r ?%elem_of_nil.
  - pose proof (reachable_in_flight_uploading rev w Hreach) as Hflight.
    assert (Hkeep : ∀ r it, heap w !! r = Some it →
              ∃ it', heap (step rev w e) !! r = Some it'
                     ∧ allowed (QueueItem.status it) (QueueItem.status it')).
    { intros r it Hit. by apply status_step. }
    destruct (step_queue_step rev w e) as (q & n & Hsub & Hq & Hnew).
    split_and!.
    + rewrite Hq. apply NoDup_app. split_and!.
      * by eapply sublist_NoDup.
      * intros r Hr [Hge _]%elem_of_seq.
        assert (Hr' : r ∈ queue (state w))
          by (by eapply (sublist_subseteq _ _ Hsub)).
        apply Halloc, lookup_lt_is_Some in Hr'. lia.
      * apply NoDup_seq.
    + intros r. rewrite Hq. intros [Hr|Hr]%elem_of_app; [|by apply Hnew].
      assert (Hr' : r ∈ queue (state w))
        by (by eapply (sublist_subseteq _ _ Hsub)).
      destruct (Halloc r Hr') as [it Hit].
      destruct (Hkeep r it Hit) as (it' & Hit' & _). by exists it'.
    + intros r Hr.
      destruct (step_timers rev w e r Hflight Hen Hr) as [Hold|Hnew'];
        [|done].
      destruct (Htimers r Hold) as (it & Hit & Hst).
      destruct (Hkeep r it Hit) as (it' & Hit' & Hallowed).
      exists it'. split; [done|].
      rewrite Hst in Hallowed.
      destruct Hallowed as [?|[[? _]|[? _]]]; congruence.
Qed.

Lemma reachable_queue_well_formed_witness :
  queue_well_formed uploadingWorld.
Proof.
  apply (reachable_queue_well_formed TableView).
  apply reachable_step; [|exact I].
  apply reachable_step; [apply reachable_init|exact I].
Defined.

(** ** The order of the requests *)

Lemma filter_ext_in {A} (P Q : A → Prop) `{∀ x, Decision (P x)}
    `{∀ x, Decision (Q x)} (l : list A) :
  (∀ x, x ∈ l → P x ↔ Q x) → filter P l = filter Q l.
Proof.
  induction l as [|x l IH]; intros Hext; [done|].
  rewrite !filter_cons.
  rewrite IH by (intros y Hy; apply Hext; by right).
  destruct (decide (P x)) as [HP|HP], (decide (Q x)) as [HQ|HQ];
    try done; exfalso; apply (Hext x ltac:(left)) in HP || apply HP;
    try done; by apply (Hext x ltac:(left)).
Qed.

Lemma uploadPending_order (entries : list ref) :
  ∀ w, NoDup entries →
    ∃ w', uploadPending entries w
          = (Normal tt, w',
             filter (λ r, is_pending (heap w) r = true) entries
             ≫= start_effects)
          ∧ xhrs w' = xhrs w
                      ++ filter (λ r, is_pending (heap w) r = true) entries.
Proof.
  induction entries as [|item rest IH]; intros w Hnd.
  - exists w. cbn. by rewrite app_nil_r.
  - apply NoDup_cons in Hnd as [Hnotin Hnd].
    cbn [uploadPending]. mstep. rewrite filter_cons.
    destruct (is_pending (heap w) item) eqn:Hp.
    + rewrite decide_True by done.
      rewrite bind_unfold, uploadQueueItem_run.
      destruct (IH (start_item item w) Hnd) as (w' & -> & Hx).
      assert (Hsame :
        filter (λ r, is_pending (heap (start_item item w)) r = true) rest
        = filter (λ r, is_pending (heap w) r = true) rest).
      { apply filter_ext_in. intros r Hr. rewrite is_pending_start_item.
        split; [tauto|]. intros ?. split; [|done]. by intros ->. }
      rewrite Hsame in Hx |- *. exists w'. split; [done|].
      rewrite Hx. cbn. by rewrite <- app_assoc.
    + rewrite decide_False by done. mstep.
      destruct (IH w Hnd) as (w' & -> & Hx). by exists w'.
Qed.

(** X18. With no entry twice in the queue, as in every reachable world, the
    start-upload listener sends one request per [pending] entry, in queue
    order, each right after the item's row was redrawn; without a
    [pending] entry it shows the notification and sends nothing. *)
Theorem start_sends_in_queue_order (w : World) :
  NoDup (queue (state w)) →
  let result := run onStartUploadClick w in
  xhrs (fst result) = xhrs w ++ pendingEntries w
  ∧ snd result
    = match pendingEntries w with
      | [] => [ShowToast "Keine Dateien in der Warteschlange." Toast.info]
      | entries =>
          entries ≫= λ item,
            [UpdateQueueVisual item; XhrSend "POST" "/api/upload" item]
      end.
Proof.
  intros Hnd. cbn zeta. unfold run, onStartUploadClick, pendingEntries.
  mstep.
  destruct (existsb _ _) eqn:Hex; cbn [negb].
  - destruct (uploadPending_order (queue (state w)) w Hnd) as (w' & -> & Hx).
    cbn [fst snd]. split; [done|].
    destruct (filter _ _) as [|entry entries] eqn:Hfilter; [|done].
    apply existsb_exists in Hex as (r & Hin%list_elem_of_In & Hr).
    assert (Hr' : r ∈ filter (λ r, is_pending (heap w) r = true)
                             (queue (state w)))
      by (by apply list_elem_of_filter).
    rewrite Hfilter in Hr'. by apply elem_of_nil in Hr'.
  - assert (Hnone : filter (λ r, is_pending (heap w) r = true)
                           (queue (state w)) = []).
    { apply elem_of_nil_inv. intros r [Hr Hin]%list_elem_of_filter.
      assert (existsb (is_pending (heap w)) (queue (state w)) = true)
        by (apply existsb_exists; exists r; by rewrite <- list_elem_of_In).
      congruence. }
    rewrite Hnone. cbn. by rewrite app_nil_r.
Qed.

Lemma start_sends_in_queue_order_witness :
  snd (run onStartUploadClick queuedWorld)
  = [UpdateQueueVisual 0; XhrSend "POST" "/api/upload" 0].
Proof.
  apply (start_sends_in_queue_order queuedWorld).
  vm_compute. repeat constructor; by intros ?%elem_of_nil.
Defined.
